(** * The data pipeline of [main.py] and [main2.py]

    Both modules take a list of integers, transform every element (square of
    an even number, square root of the absolute value of an odd one, then one
    rescaling step), and derive statistics, outliers, range groups and a text
    report from the transformed list.

    Number model.  A Python [int] is a [Z].  A Python [float] is modelled
    twice.

    In the modules [Main] and [Main2] a [float] is a real number of the
    Standard Library ([R]) and its arithmetic is exact: this is the level at
    which the specification speaks of real values.  A Python [int] that
    flows into float arithmetic is injected with [IZR].  Rounding, overflow
    and NaN of binary64 are outside this model, and so is the decimal
    rounding of the format [:.2f], which is a parameter of the report.  Where
    the arithmetic of the interpreter can leave the range of binary64, the
    theorems of this model that say that a result is produced are stated for
    data inside bounds that exclude it: 10^150 for the transformation, 10^70
    where the squares of processed values are added, 10^100 for the
    standalone formula.

    The module [B64] gives the same functions over IEEE 754 binary64
    numbers, with rounding, signed zeros, infinities, NaN and the
    [OverflowError] of the interpreter.  What depends on rounding or on
    overflow (a test for a standard deviation of exactly zero, the outlier
    test, the sign of a computed value) is stated there.

    Exceptions are values of [exn]; a function that can raise returns
    [result A = exn + A], and a method of an object threads the object through
    the state-and-error monad [M]. *)

From Equations Require Import Equations.
From Stdlib Require Import Reals Lra Lia ZArith List String Ascii DecimalString.
From Stdlib Require Import Sorted.
From Stdlib Require Import Permutation.
From Stdlib Require Import SpecFloat.
Import ListNotations.

Local Open Scope R_scope.

(** ** Python prelude *)

Module Py.

(** The exception classes the two modules can raise. *)
Inductive exn : Type :=
| ValueError (msg : string)
| ZeroDivisionError
| TypeError (msg : string).

Definition result (A : Type) : Type := (exn + A)%type.

Definition ok {A} (a : A) : result A := inr a.
Definition throw {A} (e : exn) : result A := inl e.

Definition rbind {A B} (r : result A) (k : A -> result B) : result B :=
  match r with
  | inl e => inl e
  | inr a => k a
  end.

(** State and error: the object [self] is threaded through a call, and is
    kept as it was at the point where an exception is raised. *)
Definition M (S A : Type) : Type := S -> result A * S.

Definition ret {S A} (a : A) : M S A := fun s => (inr a, s).
Definition raise {S A} (e : exn) : M S A := fun s => (inl e, s).
Definition bind {S A B} (m : M S A) (k : A -> M S B) : M S B :=
  fun s =>
    match m s with
    | (inl e, s') => (inl e, s')
    | (inr a, s') => k a s'
    end.
Definition get {S} : M S S := fun s => (inr s, s).
Definition put {S} (s' : S) : M S unit := fun _ => (inr tt, s').
Definition lift {S A} (r : result A) : M S A := fun s => (r, s).

(** Arithmetic. *)

Definition Rltb (x y : R) : bool := if Rlt_dec x y then true else false.
Definition Rleb (x y : R) : bool := if Rle_dec x y then true else false.
Definition Rgtb (x y : R) : bool := Rltb y x.
Definition Reqb (x y : R) : bool := if Req_dec_T x y then true else false.

(** [sum(l)]: starts from 0 and adds from left to right. *)
Definition sum (l : list R) : R := fold_left Rplus l 0.

(** [len(l)] as a number. *)
Definition len {A} (l : list A) : R := INR (List.length l).

(** [x / y], true division. *)
Definition truediv (x y : R) : result R :=
  if Reqb y 0 then throw ZeroDivisionError else ok (x / y).

(** [max(l)]: the first maximal element; an empty argument is an error. *)
Definition max (l : list R) : result R :=
  match l with
  | [] => throw (ValueError "max() arg is an empty sequence")
  | x :: l' => ok (fold_left (fun m y => if Rgtb y m then y else m) l' x)
  end.

(** [min(l)]: the first minimal element. *)
Definition min (l : list R) : result R :=
  match l with
  | [] => throw (ValueError "min() arg is an empty sequence")
  | x :: l' => ok (fold_left (fun m y => if Rltb y m then y else m) l' x)
  end.

(** [math.sqrt] and [math.log] reject arguments outside their domain. *)
Definition math_sqrt (x : R) : result R :=
  if Rltb x 0 then throw (ValueError "math domain error") else ok (sqrt x).

Definition math_log (x : R) : result R :=
  if Rleb x 0 then throw (ValueError "math domain error") else ok (ln x).

Definition math_pi : R := PI.

(** [enumerate(l)]. *)
Fixpoint enumerate_from {A} (i : nat) (l : list A) : list (nat * A) :=
  match l with
  | [] => []
  | x :: l' => (i, x) :: enumerate_from (S i) l'
  end.

Definition enumerate {A} (l : list A) : list (nat * A) := enumerate_from 0 l.

(** Iterating over a value that may be [None]. *)
Definition iter {A} (o : option (list A)) : result (list A) :=
  match o with
  | Some l => ok l
  | None => throw (TypeError "'NoneType' object is not iterable")
  end.

(** [str(n)] for a non-negative [int]. *)
Definition str (n : nat) : string := NilEmpty.string_of_uint (Nat.to_uint n).

Definition newline : string := String (ascii_of_nat 10) EmptyString.

(** ["\n".join(lines)]. *)
Definition join_lines (lines : list string) : string :=
  String.concat newline lines.

(** The dictionary with the keys [mean], [max], [min], [std_dev]; the keys
    are fixed, so it is a record. *)
Record Stats : Type := mkStats {
  mean : R;
  max_ : R;
  min_ : R;
  std_dev : R
}.

(** The dictionary with the keys [low], [medium], [high]. *)
Record Groups : Type := mkGroups {
  low : list R;
  medium : list R;
  high : list R
}.

End Py.

Import Py.

Declare Scope result_scope.
Declare Scope monad_scope.
Delimit Scope result_scope with res.
Delimit Scope monad_scope with st.

Notation "x <- r ;; k" := (rbind r (fun x => k))
  (at level 61, r at next level, right associativity) : result_scope.
Notation "x <- m ;; k" := (bind m (fun x => k))
  (at level 61, m at next level, right associativity) : monad_scope.
Notation "m ;; k" := (bind m (fun _ => k))
  (at level 61, right associativity) : monad_scope.

(** ** More of Python: indices, slices, input and output *)

Module Builtins.

(** [l[-k]] for [k >= 1]; [None] stands for the [IndexError] of an index out
    of range. *)
Definition getitem_neg (l : list Z) (k : nat) : option Z :=
  if (List.length l <? k)%nat then None
  else nth_error l (List.length l - k).

(** [l[:stop]]: a negative [stop] counts from the end. *)
Definition slice_to {A} (l : list A) (stop : Z) : list A :=
  if (0 <=? stop)%Z then firstn (Z.to_nat stop) l
  else firstn (Z.to_nat (Z.of_nat (List.length l) + stop)) l.

(** [str(n)] for an [int]. *)
Definition str_int (n : Z) : string := NilZero.string_of_int (Z.to_int n).

(** [print(s)]: the state is the list of the lines written so far. *)
Definition print (s : string) : M (list string) unit :=
  fun out => (inr tt, out ++ [s]).

End Builtins.

Import Builtins.

(** ** main2.py *)

Module Main2.

Module DataTransformer.

Definition transform_even_number (num : Z) : R := IZR (num ^ 2).

Definition transform_odd_number (num : Z) : result R :=
  math_sqrt (IZR (Z.abs num)).

Definition adjust_value_range (value : R) : R :=
  if Rgtb value 100 then value / 10
  else if Rltb value 1 then value * 10
  else value.

End DataTransformer.

Module DataStatisticsCalculator.

Definition calculate_mean (values : list R) : result R :=
  truediv (sum values) (len values).

Definition calculate_standard_deviation (values : list R) : result R :=
  (mean <- calculate_mean values ;;
   variance <- truediv (sum (map (fun x => (x - mean) ^ 2) values))
                       (len values) ;;
   math_sqrt variance)%res.

(** The entries of the dictionary are evaluated in the order they are
    written: [mean], [max], [min], [std_dev]. *)
Definition calculate_basic_stats (values : list R) : result Stats :=
  (mean <- calculate_mean values ;;
   mx <- max values ;;
   mn <- min values ;;
   sd <- calculate_standard_deviation values ;;
   ok (mkStats mean mx mn sd))%res.

End DataStatisticsCalculator.

Record ProcessedData : Type := mkProcessedData {
  values : list R;
  is_processed : bool
}.

Module DataProcessor.

Record t : Type := mk {
  raw_data : list Z;
  _results : ProcessedData
}.

(** [DataProcessor(data)]. *)
Definition new (data : list Z) : t :=
  mk data (mkProcessedData [] false).

(** The body of the [for] loop of [process_data]. *)
Definition process_item (num : Z) : result R :=
  (transformed <- (if (num mod 2 =? 0)%Z
                   then ok (DataTransformer.transform_even_number num)
                   else DataTransformer.transform_odd_number num) ;;
   ok (DataTransformer.adjust_value_range transformed))%res.

(** The loop: every adjusted value is appended to [transformed_values]. *)
Fixpoint process_loop (l : list Z) (transformed_values : list R)
  : result (list R) :=
  match l with
  | [] => ok transformed_values
  | num :: l' =>
      (adjusted <- process_item num ;;
       process_loop l' (transformed_values ++ [adjusted]))%res
  end.

Definition process_data : M t unit :=
  (self <- get ;;
   match raw_data self with
   | [] => raise (ValueError "Данные не могут быть пустыми")
   | _ :: _ =>
       transformed_values <- lift (process_loop (raw_data self) []) ;;
       put (mk (raw_data self) (mkProcessedData transformed_values true))
   end)%st.

Definition get_results : M t (list R) :=
  (self <- get ;;
   (if negb (is_processed (_results self)) then process_data else ret tt) ;;
   self <- get ;;
   ret (values (_results self)))%st.

Definition calculate_stats : M t Stats :=
  (results <- get_results ;;
   lift (DataStatisticsCalculator.calculate_basic_stats results))%st.

End DataProcessor.

(** A [DataAnalyzer] holds a reference to a processor and nothing else: its
    methods run on the processor object it refers to. *)
Module DataAnalyzer.

Definition is_outlier (mean std_dev threshold : R) (p : nat * R) : bool :=
  Rgtb (Rabs (snd p - mean)) (threshold * std_dev).

Definition find_outliers (threshold : R) : M DataProcessor.t (list (nat * R)) :=
  (results <- DataProcessor.get_results ;;
   stats <- DataProcessor.calculate_stats ;;
   ret (filter (is_outlier (mean stats) (std_dev stats) threshold)
               (enumerate results)))%st.

Definition group_values_by_ranges : M DataProcessor.t Groups :=
  (results <- DataProcessor.get_results ;;
   ret (mkGroups
          (filter (fun v => Rltb v 10) results)
          (filter (fun v => andb (Rleb 10 v) (Rleb v 50)) results)
          (filter (fun v => Rgtb v 50) results)))%st.

End DataAnalyzer.

Module ReportGenerator.

Section Report.

(** The format specification [:.2f] of an f-string. *)
Variable format_2f : R -> string.

(** The list [report_lines]. *)
Definition report_lines (stats : Stats) (outliers : list (nat * R))
  (groups : Groups) : list string :=
  [ "=== Статистический отчет ===";
    "Среднее значение: " ++ format_2f (mean stats);
    "Максимальное значение: " ++ format_2f (max_ stats);
    "Минимальное значение: " ++ format_2f (min_ stats);
    "Стандартное отклонение: " ++ format_2f (std_dev stats);
    newline ++ "=== Выбросы ===" ]%string
  ++ map (fun p => "Индекс " ++ str (fst p) ++ ": " ++ format_2f (snd p))%string
         outliers
  ++ [ newline ++ "=== Группировка значений ===";
       "Низкие значения (кол-во): " ++ str (List.length (low groups));
       "Средние значения (кол-во): " ++ str (List.length (medium groups));
       "Высокие значения (кол-во): " ++ str (List.length (high groups)) ]%string.

Definition generate_text_report : M DataProcessor.t string :=
  (stats <- DataProcessor.calculate_stats ;;
   outliers <- DataAnalyzer.find_outliers 2 ;;
   groups <- DataAnalyzer.group_values_by_ranges ;;
   ret (join_lines (report_lines stats outliers groups)))%st.

End Report.

End ReportGenerator.

Module MathOperations.

Definition perform_complex_calculation (x y : Z) (z : option Z) : result R :=
  (let result0 := IZR (x * y) in
   result1 <- match z with
              | Some z =>
                  if (z =? 0)%Z
                  then throw (ValueError "Делитель не может быть нулем")
                  else truediv result0 (IZR z)
              | None => ok result0
              end ;;
   let log_base := if Rgtb result1 0 then result1 else Rabs result1 + 1 in
   l <- math_log log_base ;;
   ok (l * math_pi))%res.

End MathOperations.

Module DataGenerator.

Section Random.

(** The generator of [random]: [randint lo hi] returns a number and the next
    state of the generator, or raises. *)
Variable rng : Type.
Variable randint : Z -> Z -> M rng Z.

(** The comprehension [[random.randint(min_val, max_val) for _ in range(n)]]. *)
Fixpoint random_loop (n : nat) (min_val max_val : Z) : M rng (list Z) :=
  match n with
  | O => ret []
  | S n' =>
      (v <- randint min_val max_val ;;
       rest <- random_loop n' min_val max_val ;;
       ret (v :: rest))%st
  end.

(** The defaults are [size = 100], [min_val = -50] and [max_val = 50]. *)
Definition generate_random_data (size min_val max_val : Z) : M rng (list Z) :=
  random_loop (Z.to_nat size) min_val max_val.

End Random.

(** The [while] loop of [generate_fibonacci_sequence]. *)
Equations? fibonacci_loop (length : Z) (sequence : list Z)
  : option (list Z)
  by wf (Z.to_nat (length - Z.of_nat (List.length sequence))) lt :=
  fibonacci_loop length sequence
    with Z_lt_dec (Z.of_nat (List.length sequence)) length := {
    | left _ with getitem_neg sequence 1, getitem_neg sequence 2 := {
        | Some a, Some b => fibonacci_loop length (sequence ++ [(a + b)%Z]);
        | _, _ => None };
    | right _ => Some sequence }.
Proof.
  rewrite length_app. simpl. lia.
Qed.

Definition generate_fibonacci_sequence (length : Z) : option (list Z) :=
  if (length <=? 0)%Z then Some []
  else if (length =? 1)%Z then Some [0%Z]
  else match fibonacci_loop length [0%Z; 1%Z] with
       | Some sequence => Some (slice_to sequence length)
       | None => None
       end.

End DataGenerator.

Module InputValidator.

Section Input.

(** [int(value)] for a string, the method [strip] and the format [:.2f]. *)
Variable py_int : string -> result Z.
Variable strip : string -> string.
Variable format_2f : R -> string.

(** Only a [ValueError] of [int] is caught. *)
Definition validate_positive_integer (value : string)
  : result (bool * option Z) :=
  match py_int value with
  | inr num =>
      ok ((0 <=? num)%Z, if (0 <=? num)%Z then Some num else None)
  | inl (ValueError _) => ok (false, None)
  | inl e => throw e
  end.

(** [line] is what [input()] returns. *)
Definition process_user_input (line : string) : M (list string) unit :=
  (print "Введите положительное целое число:" ;;
   let user_input := strip line in
   r <- lift (validate_positive_integer user_input) ;;
   let (is_valid, number) := r in
   if negb is_valid
   then print "Ошибка: введено недопустимое значение"
   else
     match number with
     | Some number =>
         print ("Вы ввели: " ++ str_int number)%string ;;
         result <- lift (MathOperations.perform_complex_calculation
                           number (number + 5) (Some (number - 3)%Z)) ;;
         print ("Результат комплексной операции: " ++ format_2f result)%string
     | None =>
         print "Вы ввели: None" ;;
         raise (TypeError
                  "unsupported operand type(s) for +: 'NoneType' and 'int'")
     end)%st.

End Input.

End InputValidator.

End Main2.

(** ** main.py *)

Module Main.

Module DataProcessor.

Record t : Type := mk {
  data : list Z;
  _processed : bool;
  _results : option (list R)
}.

(** [DataProcessor(data)]. *)
Definition new (data : list Z) : t := mk data false None.

(** The body of the [for] loop of [process_data]: the first operation, then
    the second. *)
Definition process_item (num : Z) : result R :=
  (res <- (if (num mod 2 =? 0)%Z
           then ok (IZR (num ^ 2))
           else math_sqrt (IZR (Z.abs num))) ;;
   ok (if Rgtb res 100 then res / 10
       else if Rltb res 1 then res * 10
       else res))%res.

(** The loop: every value is appended to [temp_results]. *)
Fixpoint process_loop (l : list Z) (temp_results : list R) : result (list R) :=
  match l with
  | [] => ok temp_results
  | num :: l' =>
      (res <- process_item num ;;
       process_loop l' (temp_results ++ [res]))%res
  end.

Definition process_data : M t unit :=
  (self <- get ;;
   match data self with
   | [] => raise (ValueError "Данные не могут быть пустыми")
   | _ :: _ =>
       temp_results <- lift (process_loop (data self) []) ;;
       put (mk (data self) true (Some temp_results))
   end)%st.

(** Returns [self._results], which is [None] until the data are processed. *)
Definition get_results : M t (option (list R)) :=
  (self <- get ;;
   (if negb (_processed self) then process_data else ret tt) ;;
   self <- get ;;
   ret (_results self))%st.

Definition _calculate_std_dev : M t R :=
  (self <- get ;;
   results <- lift (iter (_results self)) ;;
   mean <- lift (truediv (sum results) (len results)) ;;
   variance <- lift (truediv (sum (map (fun x => (x - mean) ^ 2) results))
                             (len results)) ;;
   lift (math_sqrt variance))%st.

Definition calculate_stats : M t Stats :=
  (self <- get ;;
   (if negb (_processed self) then process_data else ret tt) ;;
   self <- get ;;
   results <- lift (iter (_results self)) ;;
   mean <- lift (truediv (sum results) (len results)) ;;
   mx <- lift (max results) ;;
   mn <- lift (min results) ;;
   sd <- _calculate_std_dev ;;
   ret (mkStats mean mx mn sd))%st.

End DataProcessor.

(** A [DataAnalyzer] holds a reference to a processor and nothing else: its
    methods run on the processor object it refers to. *)
Module DataAnalyzer.

(** The loop of [find_outliers] over [enumerate(results)]. *)
Fixpoint outliers_loop (mean std_dev threshold : R) (l : list (nat * R))
  (outliers : list (nat * R)) : list (nat * R) :=
  match l with
  | [] => outliers
  | (idx, value) :: l' =>
      outliers_loop mean std_dev threshold l'
        (if Rgtb (Rabs (value - mean)) (threshold * std_dev)
         then outliers ++ [(idx, value)]
         else outliers)
  end.

Definition find_outliers (threshold : R) : M DataProcessor.t (list (nat * R)) :=
  (results <- DataProcessor.get_results ;;
   stats <- DataProcessor.calculate_stats ;;
   results <- lift (iter results) ;;
   ret (outliers_loop (mean stats) (std_dev stats) threshold
          (enumerate results) []))%st.

(** The loop of [group_values]. *)
Fixpoint group_loop (l : list R) (groups : Groups) : Groups :=
  match l with
  | [] => groups
  | value :: l' =>
      group_loop l'
        (if Rltb value 10
         then mkGroups (low groups ++ [value]) (medium groups) (high groups)
         else if andb (Rleb 10 value) (Rleb value 50)
         then mkGroups (low groups) (medium groups ++ [value]) (high groups)
         else mkGroups (low groups) (medium groups) (high groups ++ [value]))
  end.

Definition group_values : M DataProcessor.t Groups :=
  (results <- DataProcessor.get_results ;;
   results <- lift (iter results) ;;
   ret (group_loop results (mkGroups [] [] [])))%st.

End DataAnalyzer.

Module ReportGenerator.

Section Report.

(** The format specification [:.2f] of an f-string. *)
Variable format_2f : R -> string.

(** The loop that appends one line per outlier to [report]. *)
Fixpoint outlier_lines (outliers : list (nat * R)) (report : list string)
  : list string :=
  match outliers with
  | [] => report
  | (idx, value) :: l' =>
      outlier_lines l'
        (report ++ [("Индекс " ++ str idx ++ ": " ++ format_2f value)%string])
  end.

Definition generate_text_report : M DataProcessor.t string :=
  (stats <- DataProcessor.calculate_stats ;;
   outliers <- DataAnalyzer.find_outliers 2 ;;
   groups <- DataAnalyzer.group_values ;;
   let report := [] in
   let report := report ++ ["=== Статистический отчет ==="%string] in
   let report :=
     report ++ [("Среднее значение: " ++ format_2f (mean stats))%string] in
   let report :=
     report ++ [("Максимальное значение: " ++ format_2f (max_ stats))%string] in
   let report :=
     report ++ [("Минимальное значение: " ++ format_2f (min_ stats))%string] in
   let report :=
     report ++ [("Стандартное отклонение: " ++ format_2f (std_dev stats))%string] in
   let report := report ++ [(newline ++ "=== Выбросы ===")%string] in
   let report := outlier_lines outliers report in
   let report :=
     report ++ [(newline ++ "=== Группировка значений ===")%string] in
   let report :=
     report ++ [("Низкие значения (кол-во): "
                 ++ str (List.length (low groups)))%string] in
   let report :=
     report ++ [("Средние значения (кол-во): "
                 ++ str (List.length (medium groups)))%string] in
   let report :=
     report ++ [("Высокие значения (кол-во): "
                 ++ str (List.length (high groups)))%string] in
   ret (join_lines report))%st.

End Report.

End ReportGenerator.

Definition complex_operation (x y : Z) (z : option Z) : result R :=
  (let result0 := IZR (x * y) in
   result1 <- match z with
              | Some z =>
                  if (z =? 0)%Z
                  then throw (ValueError "z не может быть нулем")
                  else truediv result0 (IZR z)
              | None => ok result0
              end ;;
   result2 <- (if Rgtb result1 0
               then math_log result1
               else math_log (Rabs result1 + 1)) ;;
   ok (result2 * math_pi))%res.

Module DataGenerator.

Section Random.

Variable rng : Type.
Variable randint : Z -> Z -> M rng Z.

(** The comprehension [[random.randint(-50, 50) for _ in range(n)]]. *)
Fixpoint random_loop (n : nat) : M rng (list Z) :=
  match n with
  | O => ret []
  | S n' =>
      (v <- randint (-50) 50 ;;
       rest <- random_loop n' ;;
       ret (v :: rest))%st
  end.

(** The default is [size = 100]. *)
Definition generate_random_data (size : Z) : M rng (list Z) :=
  random_loop (Z.to_nat size).

End Random.

(** The [while] loop of [generate_fibonacci_sequence]. *)
Equations? fibonacci_loop (length : Z) (sequence : list Z)
  : option (list Z)
  by wf (Z.to_nat (length - Z.of_nat (List.length sequence))) lt :=
  fibonacci_loop length sequence
    with Z_lt_dec (Z.of_nat (List.length sequence)) length := {
    | left _ with getitem_neg sequence 1, getitem_neg sequence 2 := {
        | Some a, Some b => fibonacci_loop length (sequence ++ [(a + b)%Z]);
        | _, _ => None };
    | right _ => Some sequence }.
Proof.
  rewrite length_app. simpl. lia.
Qed.

Definition generate_fibonacci_sequence (length : Z) : option (list Z) :=
  if (length <=? 0)%Z then Some []
  else if (length =? 1)%Z then Some [0%Z]
  else match fibonacci_loop length [0%Z; 1%Z] with
       | Some sequence => Some (slice_to sequence length)
       | None => None
       end.

End DataGenerator.

Section Input.

(** [int(value)] for a string, the method [strip] and the format [:.2f]. *)
Variable py_int : string -> result Z.
Variable strip : string -> string.
Variable format_2f : R -> string.

(** Only a [ValueError] of [int] is caught. *)
Definition validate_input (value : string) : result (bool * option Z) :=
  match py_int value with
  | inr num =>
      if (num <? 0)%Z then ok (false, None) else ok (true, Some num)
  | inl (ValueError _) => ok (false, None)
  | inl e => throw e
  end.

(** [line] is what [input()] returns. *)
Definition process_user_input (line : string) : M (list string) unit :=
  (print "Введите положительное целое число:" ;;
   let user_input := strip line in
   r <- lift (validate_input user_input) ;;
   let (is_valid, number) := r in
   if negb is_valid
   then print "Ошибка: введено недопустимое значение"
   else
     match number with
     | Some number =>
         print ("Вы ввели: " ++ str_int number)%string ;;
         result <- lift (complex_operation
                           number (number + 5) (Some (number - 3)%Z)) ;;
         print ("Результат комплексной операции: " ++ format_2f result)%string
     | None =>
         print "Вы ввели: None" ;;
         raise (TypeError
                  "unsupported operand type(s) for +: 'NoneType' and 'int'")
     end)%st.

End Input.

End Main.

(** ** The vocabulary of the specification *)

Module Spec.

(** [selectTransform]: the square of an even number, the square root of the
    absolute value of an odd one. *)
Definition selectTransform (n : Z) : R :=
  if Z.even n then IZR n ^ 2 else sqrt (Rabs (IZR n)).

(** [adjustRange]: one rescaling step. *)
Definition adjustRange (v : R) : R :=
  if Rgt_dec v 100 then v / 10
  else if Rlt_dec v 1 then v * 10
  else v.

(** The arithmetic mean and the population standard deviation. *)
Definition mean (values : list R) : R :=
  fold_right Rplus 0 values / INR (List.length values).

Definition standardDeviation (values : list R) : R :=
  sqrt (fold_right Rplus 0 (map (fun x => (x - mean values) ^ 2) values)
        / INR (List.length values)).

(** The error kind [DomainError] covers the [ValueError]s of the code and the
    division by zero of an empty mean. *)
Definition DomainError (e : exn) : bool :=
  match e with
  | ValueError _ => true
  | ZeroDivisionError => true
  | TypeError _ => false
  end.

(** A computation fails with a [DomainError]. *)
Definition fails_with_DomainError {A} (r : result A) : Prop :=
  exists e, r = inl e /\ DomainError e = true.

(** The formula of [MathOp.compute]. *)
Definition compute_base (r : R) : R :=
  if Rgt_dec r 0 then r else Rabs r + 1.

Definition compute (x y : Z) (z : option Z) : R :=
  let r := match z with
           | Some d => IZR (x * y) / IZR d
           | None => IZR (x * y)
           end in
  ln (compute_base r) * PI.

(** All the elements of a list are equal. *)
Definition all_equal (values : list R) : Prop :=
  forall x y, In x values -> In y values -> x = y.

End Spec.

(** ** The Fibonacci numbers *)

(** The pair [(F n, F (n + 1))] for [F 0 = 0], [F 1 = 1] and
    [F (n + 2) = F (n + 1) + F n]. *)
Fixpoint fib_pair (n : nat) : Z * Z :=
  match n with
  | O => (0%Z, 1%Z)
  | S n' => let (a, b) := fib_pair n' in (b, (a + b)%Z)
  end.

Definition fib (n : nat) : Z := fst (fib_pair n).

(** The first [n] Fibonacci numbers. *)
Definition fib_list (n : nat) : list Z := map fib (seq 0 n).

(** A random generator that returns the lower bound, and raises for an empty
    range. *)
Definition lowest_randint (a b : Z) : M unit Z :=
  if (a <=? b)%Z then ret a
  else raise (ValueError "empty range for randrange()").

(** ** The processed list and what is derived from it *)

(** The processed list of a raw dataset. *)
Definition processed (D : list Z) : list R :=
  map (fun d => Spec.adjustRange (Spec.selectTransform d)) D.

(** The outliers of a processed list. *)
Definition outliers_of (threshold : R) (l : list R) : result (list (nat * R)) :=
  (stats <- Main2.DataStatisticsCalculator.calculate_basic_stats l ;;
   ok (filter (Main2.DataAnalyzer.is_outlier (mean stats) (std_dev stats)
                 threshold)
              (enumerate l)))%res.

(** The range groups of a processed list. *)
Definition groups_of (l : list R) : Groups :=
  mkGroups (filter (fun v => Rltb v 10) l)
           (filter (fun v => andb (Rleb 10 v) (Rleb v 50)) l)
           (filter (fun v => Rgtb v 50) l).

(** The report of a processed list. *)
Definition report_of (format_2f : R -> string) (l : list R) : result string :=
  (stats <- Main2.DataStatisticsCalculator.calculate_basic_stats l ;;
   outliers <- outliers_of 2 l ;;
   ok (join_lines
         (Main2.ReportGenerator.report_lines format_2f stats outliers
            (groups_of l))))%res.

(** ** Calls and observations *)

(** The public methods of a processor, of the analyzer that refers to it and
    of the report generator. *)
Inductive call : Type :=
| ProcessData
| GetResults
| CalculateStats
| FindOutliers (threshold : R)
| GroupValues
| GenerateTextReport.

(** What a call returns. *)
Inductive value : Type :=
| VNone
| VList (l : list R)
| VStats (s : Stats)
| VOutliers (l : list (nat * R))
| VGroups (g : Groups)
| VText (s : string).

Definition fmap {S A B} (f : A -> B) (m : M S A) : M S B :=
  (a <- m ;; ret (f a))%st.

Definition main_call (format_2f : R -> string) (c : call)
  : M Main.DataProcessor.t value :=
  match c with
  | ProcessData => fmap (fun _ => VNone) Main.DataProcessor.process_data
  | GetResults =>
      fmap (fun o => match o with Some l => VList l | None => VNone end)
           Main.DataProcessor.get_results
  | CalculateStats => fmap VStats Main.DataProcessor.calculate_stats
  | FindOutliers t => fmap VOutliers (Main.DataAnalyzer.find_outliers t)
  | GroupValues => fmap VGroups Main.DataAnalyzer.group_values
  | GenerateTextReport =>
      fmap VText (Main.ReportGenerator.generate_text_report format_2f)
  end.

Definition main2_call (format_2f : R -> string) (c : call)
  : M Main2.DataProcessor.t value :=
  match c with
  | ProcessData => fmap (fun _ => VNone) Main2.DataProcessor.process_data
  | GetResults => fmap VList Main2.DataProcessor.get_results
  | CalculateStats => fmap VStats Main2.DataProcessor.calculate_stats
  | FindOutliers t => fmap VOutliers (Main2.DataAnalyzer.find_outliers t)
  | GroupValues => fmap VGroups Main2.DataAnalyzer.group_values_by_ranges
  | GenerateTextReport =>
      fmap VText (Main2.ReportGenerator.generate_text_report format_2f)
  end.

(** The results and errors of a sequence of calls on one object. *)
Fixpoint trace {S} (step : call -> M S value) (calls : list call) (s : S)
  : list (result value) :=
  match calls with
  | [] => []
  | c :: calls' =>
      let (r, s') := step c s in
      r :: trace step calls' s'
  end.

(** Corresponding objects of the two modules: both processed with the same
    list, or both unprocessed; the raw data are the same. *)
Inductive sim : Main.DataProcessor.t -> Main2.DataProcessor.t -> Prop :=
| sim_processed (D : list Z) (l : list R) :
    sim (Main.DataProcessor.mk D true (Some l))
        (Main2.DataProcessor.mk D (Main2.mkProcessedData l true))
| sim_unprocessed (D : list Z) (o : option (list R)) (l : list R) :
    sim (Main.DataProcessor.mk D false o)
        (Main2.DataProcessor.mk D (Main2.mkProcessedData l false)).

(** [s] is [l] with some elements left out, the others in their order. *)
Inductive subseq {A : Type} : list A -> list A -> Prop :=
| subseq_nil : subseq [] []
| subseq_skip (x : A) (s l : list A) : subseq s l -> subseq s (x :: l)
| subseq_keep (x : A) (s l : list A) : subseq s l -> subseq (x :: s) (x :: l).

(** ** Binary64 arithmetic

    The definitions above compute with exact reals.  The module [B64] gives
    the arithmetic of the two source files as the interpreter performs it:
    an [int] is a [Z] of any size, a [float] is an IEEE 754 binary64 number
    ([spec_float] with 53 bits of precision), every operation rounds to
    nearest, ties to even, and the conversions and operations that leave
    the range of binary64 raise [OverflowError] where Python does.  [sum]
    adds from left to right, without a compensation term, and [x ** 2] of a
    [float] is the rounded product of [x] with itself.  [math.log] is a
    parameter.

    The functions take and return the values that the methods of the two
    modules read from and store in their objects; the objects themselves,
    with the lazy processing, are modelled in [Main] and [Main2]. *)

Module B64.

Definition prec : Z := 53.
Definition emax : Z := 1024.

Inductive exn : Type :=
| ValueError (msg : string)
| ZeroDivisionError
| OverflowError (msg : string).

Definition result (A : Type) : Type := (exn + A)%type.

Definition ok {A} (a : A) : result A := inr a.
Definition throw {A} (e : exn) : result A := inl e.

Definition rbind {A B} (r : result A) (k : A -> result B) : result B :=
  match r with
  | inl e => inl e
  | inr a => k a
  end.

(** A number of Python: an [int] or a [float]. *)
Inductive num : Type :=
| Int (z : Z)
| Float (f : spec_float).

Definition fzero : spec_float := S754_zero false.

(** [float(z)]: the nearest binary64 number, or [OverflowError]. *)
Definition of_int (z : Z) : result spec_float :=
  match binary_normalize prec emax z 0 false with
  | S754_infinity _ =>
      throw (OverflowError "int too large to convert to float")
  | f => ok f
  end.

Definition to_float (x : num) : result spec_float :=
  match x with
  | Int z => of_int z
  | Float f => ok f
  end.

(** [a / b] for two [int]s: the quotient rounded once. *)
Definition int_truediv (a b : Z) : result spec_float :=
  match a, b with
  | _, Z0 => throw ZeroDivisionError
  | Z0, _ => ok (S754_zero (b <? 0)%Z)
  | _, _ =>
      match SFdiv prec emax
              (S754_finite (a <? 0)%Z (Z.to_pos (Z.abs a)) 0)
              (S754_finite (b <? 0)%Z (Z.to_pos (Z.abs b)) 0) with
      | S754_infinity _ =>
          throw (OverflowError "integer division result too large for a float")
      | f => ok f
      end
  end.

(** Comparisons are exact, also between an [int] and a [float]. *)
Definition compare_int_float (z : Z) (f : spec_float) : option comparison :=
  match f with
  | S754_nan => None
  | S754_infinity s => Some (if s then Gt else Lt)
  | S754_zero _ => Some (z ?= 0)%Z
  | S754_finite s m e =>
      let v := cond_Zopp s (Zpos m) in
      match e with
      | Zneg p => Some (z * 2 ^ Zpos p ?= v)%Z
      | _ => Some (z ?= v * 2 ^ e)%Z
      end
  end.

Definition compare (x y : num) : option comparison :=
  match x, y with
  | Int a, Int b => Some (a ?= b)%Z
  | Int a, Float g => compare_int_float a g
  | Float f, Int b => option_map CompOpp (compare_int_float b f)
  | Float f, Float g => SFcompare f g
  end.

Definition ltb (x y : num) : bool :=
  match compare x y with Some Lt => true | _ => false end.
Definition gtb (x y : num) : bool :=
  match compare x y with Some Gt => true | _ => false end.
Definition leb (x y : num) : bool :=
  match compare x y with Some (Lt | Eq) => true | _ => false end.

(** [0 <= x]. *)
Definition nonneg (x : num) : bool := leb (Int 0) x.

Definition is_zero (f : spec_float) : bool :=
  match f with S754_zero _ => true | _ => false end.

Definition is_finite (f : spec_float) : bool :=
  match f with S754_zero _ | S754_finite _ _ _ => true | _ => false end.

(** A number that is not an infinity and not NaN; every [int] is one. *)
Definition finite_num (x : num) : bool :=
  match x with
  | Int _ => true
  | Float f => is_finite f
  end.

Definition add (x y : num) : result num :=
  match x, y with
  | Int a, Int b => ok (Int (a + b))
  | _, _ =>
      rbind (to_float x) (fun f =>
      rbind (to_float y) (fun g => ok (Float (SFadd prec emax f g))))
  end.

Definition sub (x y : num) : result num :=
  match x, y with
  | Int a, Int b => ok (Int (a - b))
  | _, _ =>
      rbind (to_float x) (fun f =>
      rbind (to_float y) (fun g => ok (Float (SFsub prec emax f g))))
  end.

Definition mul (x y : num) : result num :=
  match x, y with
  | Int a, Int b => ok (Int (a * b))
  | _, _ =>
      rbind (to_float x) (fun f =>
      rbind (to_float y) (fun g => ok (Float (SFmul prec emax f g))))
  end.

(** [x / y]: always a [float]. *)
Definition truediv (x y : num) : result spec_float :=
  match x, y with
  | Int a, Int b => int_truediv a b
  | _, _ =>
      rbind (to_float x) (fun f =>
      rbind (to_float y) (fun g =>
        if is_zero g then throw ZeroDivisionError
        else ok (SFdiv prec emax f g)))
  end.

(** [x ** 2]: a [float] result that leaves the range is an error. *)
Definition pow2 (x : num) : result num :=
  match x with
  | Int a => ok (Int (a ^ 2))
  | Float f =>
      match SFmul prec emax f f with
      | S754_infinity s =>
          if is_finite f
          then throw (OverflowError "(34, 'Numerical result out of range')")
          else ok (Float (S754_infinity s))
      | r => ok (Float r)
      end
  end.

Definition abs (x : num) : num :=
  match x with
  | Int a => Int (Z.abs a)
  | Float f => Float (SFabs f)
  end.

(** [math.sqrt(x)]. *)
Definition math_sqrt (x : num) : result spec_float :=
  rbind (to_float x) (fun f =>
    if SFltb f fzero
    then throw (ValueError "math domain error")
    else ok (SFsqrt prec emax f)).

(** [sum(l)]: starts from the [int] 0 and adds from left to right. *)
Fixpoint sum_from (acc : num) (l : list num) : result num :=
  match l with
  | [] => ok acc
  | x :: l' => rbind (add acc x) (fun acc' => sum_from acc' l')
  end.

Definition sum (l : list num) : result num := sum_from (Int 0) l.

Definition len {A} (l : list A) : num := Int (Z.of_nat (List.length l)).

Definition max (l : list num) : result num :=
  match l with
  | [] => throw (ValueError "max() arg is an empty sequence")
  | x :: l' => ok (fold_left (fun m y => if gtb y m then y else m) l' x)
  end.

Definition min (l : list num) : result num :=
  match l with
  | [] => throw (ValueError "min() arg is an empty sequence")
  | x :: l' => ok (fold_left (fun m y => if ltb y m then y else m) l' x)
  end.

Record Stats : Type := mkStats {
  mean : spec_float;
  max_ : num;
  min_ : num;
  std_dev : spec_float
}.

Record Groups : Type := mkGroups {
  low : list num;
  medium : list num;
  high : list num
}.

(** [abs(value - mean) > threshold * std_dev]. *)
Definition is_outlier (mean std_dev threshold : spec_float) (value : num)
  : result bool :=
  rbind (sub value (Float mean)) (fun d =>
    ok (gtb (abs d) (Float (SFmul prec emax threshold std_dev)))).

(** The generator [(x - mean) ** 2 for x in values] under [sum]. *)
Fixpoint sum_squares (acc : num) (mean : spec_float) (l : list num)
  : result num :=
  match l with
  | [] => ok acc
  | x :: l' =>
      rbind (sub x (Float mean)) (fun d =>
      rbind (pow2 d) (fun q =>
      rbind (add acc q) (fun acc' => sum_squares acc' mean l')))
  end.

(** [math.log(x)]: [libm_log] is the logarithm of a positive number as the C
    library computes it. *)
Definition math_log (libm_log : num -> spec_float) (x : num)
  : result spec_float :=
  if leb x (Int 0) then throw (ValueError "math domain error")
  else ok (libm_log x).

(** [math.pi]. *)
Definition math_pi : spec_float :=
  S754_finite false 7074237752028440 (-51).

(** *** main2.py *)

Module Main2.

Definition transform_even_number (n : Z) : num := Int (n ^ 2).

Definition transform_odd_number (n : Z) : result num :=
  rbind (math_sqrt (abs (Int n))) (fun r => ok (Float r)).

Definition adjust_value_range (value : num) : result num :=
  if gtb value (Int 100)
  then rbind (truediv value (Int 10)) (fun r => ok (Float r))
  else if ltb value (Int 1) then mul value (Int 10)
  else ok value.

Definition process_item (n : Z) : result num :=
  rbind (if (n mod 2 =? 0)%Z
         then ok (transform_even_number n)
         else transform_odd_number n)
        adjust_value_range.

Fixpoint process_loop (l : list Z) (transformed_values : list num)
  : result (list num) :=
  match l with
  | [] => ok transformed_values
  | n :: l' =>
      rbind (process_item n) (fun adjusted =>
        process_loop l' (transformed_values ++ [adjusted]))
  end.

(** The body of [process_data]: the list it stores. *)
Definition process (raw_data : list Z) : result (list num) :=
  match raw_data with
  | [] => throw (ValueError "Данные не могут быть пустыми")
  | _ :: _ => process_loop raw_data []
  end.

Definition calculate_mean (values : list num) : result spec_float :=
  rbind (sum values) (fun s => truediv s (len values)).

Definition calculate_standard_deviation (values : list num)
  : result spec_float :=
  rbind (calculate_mean values) (fun mean =>
  rbind (sum_squares (Int 0) mean values) (fun s =>
  rbind (truediv s (len values)) (fun variance =>
  math_sqrt (Float variance)))).

Definition calculate_basic_stats (values : list num) : result Stats :=
  rbind (calculate_mean values) (fun mean =>
  rbind (max values) (fun mx =>
  rbind (min values) (fun mn =>
  rbind (calculate_standard_deviation values) (fun sd =>
  ok (mkStats mean mx mn sd))))).

(** The comprehension of [find_outliers] over [enumerate(results)]. *)
Fixpoint outliers_of (mean std_dev threshold : spec_float)
  (l : list (nat * num)) : result (list (nat * num)) :=
  match l with
  | [] => ok []
  | (idx, value) :: l' =>
      rbind (is_outlier mean std_dev threshold value) (fun b =>
      rbind (outliers_of mean std_dev threshold l') (fun rest =>
      ok (if b then (idx, value) :: rest else rest)))
  end.

Definition find_outliers (raw_data : list Z) (threshold : spec_float)
  : result (list (nat * num)) :=
  rbind (process raw_data) (fun results =>
  rbind (calculate_basic_stats results) (fun stats =>
  outliers_of (mean stats) (std_dev stats) threshold (enumerate results))).

Definition group_values_by_ranges (results : list num) : Groups :=
  mkGroups (filter (fun v => ltb v (Int 10)) results)
           (filter (fun v => andb (leb (Int 10) v) (leb v (Int 50))) results)
           (filter (fun v => gtb v (Int 50)) results).

Definition perform_complex_calculation (libm_log : num -> spec_float)
  (x y : Z) (z : option Z) : result spec_float :=
  rbind (match z with
         | Some d =>
             if (d =? 0)%Z
             then throw (ValueError "Делитель не может быть нулем")
             else rbind (truediv (Int (x * y)) (Int d))
                        (fun r => ok (Float r))
         | None => ok (Int (x * y))
         end) (fun result1 =>
  rbind (if gtb result1 (Int 0)
         then ok result1
         else add (abs result1) (Int 1)) (fun log_base =>
  rbind (math_log libm_log log_base) (fun l =>
  ok (SFmul prec emax l math_pi)))).

End Main2.

(** *** main.py *)

Module Main.

Definition process_item (n : Z) : result num :=
  rbind (if (n mod 2 =? 0)%Z
         then ok (Int (n ^ 2))
         else rbind (math_sqrt (abs (Int n))) (fun r => ok (Float r)))
        (fun res =>
           if gtb res (Int 100)
           then rbind (truediv res (Int 10)) (fun r => ok (Float r))
           else if ltb res (Int 1) then mul res (Int 10)
           else ok res).

Fixpoint process_loop (l : list Z) (temp_results : list num)
  : result (list num) :=
  match l with
  | [] => ok temp_results
  | n :: l' =>
      rbind (process_item n) (fun res =>
        process_loop l' (temp_results ++ [res]))
  end.

Definition process (data : list Z) : result (list num) :=
  match data with
  | [] => throw (ValueError "Данные не могут быть пустыми")
  | _ :: _ => process_loop data []
  end.

Definition _calculate_std_dev (results : list num) : result spec_float :=
  rbind (rbind (sum results) (fun s => truediv s (len results))) (fun mean =>
  rbind (sum_squares (Int 0) mean results) (fun s =>
  rbind (truediv s (len results)) (fun variance =>
  math_sqrt (Float variance)))).

Definition calculate_stats (results : list num) : result Stats :=
  rbind (rbind (sum results) (fun s => truediv s (len results))) (fun mean =>
  rbind (max results) (fun mx =>
  rbind (min results) (fun mn =>
  rbind (_calculate_std_dev results) (fun sd =>
  ok (mkStats mean mx mn sd))))).

(** The loop of [find_outliers]. *)
Fixpoint outliers_loop (mean std_dev threshold : spec_float)
  (l : list (nat * num)) (outliers : list (nat * num))
  : result (list (nat * num)) :=
  match l with
  | [] => ok outliers
  | (idx, value) :: l' =>
      rbind (is_outlier mean std_dev threshold value) (fun b =>
        outliers_loop mean std_dev threshold l'
          (if b then outliers ++ [(idx, value)] else outliers))
  end.

Definition find_outliers (data : list Z) (threshold : spec_float)
  : result (list (nat * num)) :=
  rbind (process data) (fun results =>
  rbind (calculate_stats results) (fun stats =>
  outliers_loop (mean stats) (std_dev stats) threshold
    (enumerate results) [])).

(** The loop of [group_values]. *)
Fixpoint group_loop (l : list num) (groups : Groups) : Groups :=
  match l with
  | [] => groups
  | value :: l' =>
      group_loop l'
        (if ltb value (Int 10)
         then mkGroups (low groups ++ [value]) (medium groups) (high groups)
         else if andb (leb (Int 10) value) (leb value (Int 50))
         then mkGroups (low groups) (medium groups ++ [value]) (high groups)
         else mkGroups (low groups) (medium groups) (high groups ++ [value]))
  end.

Definition group_values (results : list num) : Groups :=
  group_loop results (mkGroups [] [] []).

(** [libm_log] is [math.log] of a positive number, as the C library computes
    it. *)
Definition complex_operation (libm_log : num -> spec_float) (x y : Z)
  (z : option Z) : result spec_float :=
  rbind (match z with
         | Some d =>
             if (d =? 0)%Z then throw (ValueError "z не может быть нулем")
             else rbind (truediv (Int (x * y)) (Int d))
                        (fun r => ok (Float r))
         | None => ok (Int (x * y))
         end) (fun result1 =>
  rbind (if gtb result1 (Int 0)
         then math_log libm_log result1
         else rbind (add (abs result1) (Int 1)) (math_log libm_log))
        (fun result2 => ok (SFmul prec emax result2 math_pi))).

End Main.

End B64.


(** [math.sqrt(3)], the processed value of 3. *)
Definition f_sqrt_3 : spec_float := S754_finite false 7800463371553962 (-52).





(** The processed values of the dataset [-3; 0]. *)
Definition b64_processed_m3_0 : list B64.num :=
  [B64.Float f_sqrt_3; B64.Int 0].

(** Case analysis on every comparison of the goal. *)
Ltac rcases :=
  unfold Rgtb, Rltb, Rleb, Reqb in *;
  repeat match goal with
  | |- context [Rlt_dec ?x ?y] => destruct (Rlt_dec x y)
  | |- context [Rle_dec ?x ?y] => destruct (Rle_dec x y)
  | |- context [Rgt_dec ?x ?y] => destruct (Rgt_dec x y)
  | |- context [Req_dec_T ?x ?y] => destruct (Req_dec_T x y)
  end.

(** ** Comparisons and sums *)

Lemma Rltb_true (x y : R) : Rltb x y = true <-> x < y.
Proof. unfold Rltb; destruct (Rlt_dec x y); split; intros; congruence || lra. Qed.

Lemma Rltb_false (x y : R) : Rltb x y = false <-> y <= x.
Proof. unfold Rltb; destruct (Rlt_dec x y); split; intros; congruence || lra. Qed.

Lemma Rleb_true (x y : R) : Rleb x y = true <-> x <= y.
Proof. unfold Rleb; destruct (Rle_dec x y); split; intros; congruence || lra. Qed.

Lemma Rleb_false (x y : R) : Rleb x y = false <-> y < x.
Proof. unfold Rleb; destruct (Rle_dec x y); split; intros; congruence || lra. Qed.

Lemma Rgtb_true (x y : R) : Rgtb x y = true <-> x > y.
Proof. unfold Rgtb; rewrite Rltb_true; lra. Qed.

Lemma Rgtb_false (x y : R) : Rgtb x y = false <-> x <= y.
Proof. unfold Rgtb; rewrite Rltb_false; lra. Qed.

Lemma Reqb_true (x y : R) : Reqb x y = true <-> x = y.
Proof. unfold Reqb; destruct (Req_dec_T x y); split; intros; congruence. Qed.

Lemma Reqb_false (x y : R) : Reqb x y = false <-> x <> y.
Proof. unfold Reqb; destruct (Req_dec_T x y); split; intros; congruence. Qed.

Lemma adjust_value_range_spec (v : R) :
  Main2.DataTransformer.adjust_value_range v = Spec.adjustRange v.
Proof.
  unfold Main2.DataTransformer.adjust_value_range, Spec.adjustRange.
  rcases; simpl; try reflexivity; lra.
Qed.

Lemma even_test (num : Z) : (num mod 2 =? 0)%Z = Z.even num.
Proof.
  rewrite Zmod_even. destruct (Z.even num); reflexivity.
Qed.

Lemma math_sqrt_abs (num : Z) :
  math_sqrt (IZR (Z.abs num)) = ok (sqrt (Rabs (IZR num))).
Proof.
  unfold math_sqrt. rewrite abs_IZR.
  destruct (Rltb (Rabs (IZR num)) 0) eqn:H; [|reflexivity].
  apply Rltb_true in H. pose proof (Rabs_pos (IZR num)). lra.
Qed.

Lemma IZR_square (num : Z) : IZR (num ^ 2) = IZR num ^ 2.
Proof. symmetry. exact (pow_IZR num 2). Qed.

(** What the loop body of either module computes for one number. *)
Lemma process_item_main2 (num : Z) :
  Main2.DataProcessor.process_item num
  = ok (Spec.adjustRange (Spec.selectTransform num)).
Proof.
  unfold Main2.DataProcessor.process_item, Spec.selectTransform.
  rewrite even_test. destruct (Z.even num); simpl.
  - unfold Main2.DataTransformer.transform_even_number.
    now rewrite adjust_value_range_spec, IZR_square.
  - unfold Main2.DataTransformer.transform_odd_number.
    rewrite math_sqrt_abs. simpl. now rewrite adjust_value_range_spec.
Qed.

Lemma process_item_main (num : Z) :
  Main.DataProcessor.process_item num
  = ok (Spec.adjustRange (Spec.selectTransform num)).
Proof.
  rewrite <- process_item_main2.
  unfold Main.DataProcessor.process_item, Main2.DataProcessor.process_item.
  destruct (num mod 2 =? 0)%Z; reflexivity.
Qed.

(** ** The transformation loop *)

Lemma process_loop_main (l : list Z) (acc : list R) :
  Main.DataProcessor.process_loop l acc
  = ok (acc ++ map (fun d => Spec.adjustRange (Spec.selectTransform d)) l).
Proof.
  revert acc. induction l as [|num l IH]; intros acc; simpl.
  - now rewrite app_nil_r.
  - rewrite process_item_main. simpl. rewrite IH, <- app_assoc. reflexivity.
Qed.

Lemma process_loop_main2 (l : list Z) (acc : list R) :
  Main2.DataProcessor.process_loop l acc
  = ok (acc ++ map (fun d => Spec.adjustRange (Spec.selectTransform d)) l).
Proof.
  revert acc. induction l as [|num l IH]; intros acc; simpl.
  - now rewrite app_nil_r.
  - rewrite process_item_main2. simpl. rewrite IH, <- app_assoc. reflexivity.
Qed.

Lemma process_data_main (D : list Z) (b : bool) (o : option (list R)) :
  D <> [] ->
  Main.DataProcessor.process_data (Main.DataProcessor.mk D b o)
  = (inr tt, Main.DataProcessor.mk D true (Some (processed D))).
Proof.
  intros HD. destruct D as [|d D]; [congruence|].
  unfold Main.DataProcessor.process_data, bind, get, lift, put.
  cbn [Main.DataProcessor.data].
  rewrite process_loop_main. reflexivity.
Qed.

Lemma process_data_main2 (D : list Z) (r : Main2.ProcessedData) :
  D <> [] ->
  Main2.DataProcessor.process_data (Main2.DataProcessor.mk D r)
  = (inr tt,
     Main2.DataProcessor.mk D (Main2.mkProcessedData (processed D) true)).
Proof.
  intros HD. destruct D as [|d D]; [congruence|].
  unfold Main2.DataProcessor.process_data, bind, get, lift, put.
  cbn [Main2.DataProcessor.raw_data].
  rewrite process_loop_main2. reflexivity.
Qed.

(** ** Sums, means and deviations *)

Lemma fold_left_Rplus (l : list R) (a : R) :
  fold_left Rplus l a = a + fold_right Rplus 0 l.
Proof.
  revert a. induction l as [|x l IH]; intros a; simpl.
  - lra.
  - rewrite IH. lra.
Qed.

Lemma sum_fold_right (l : list R) : sum l = fold_right Rplus 0 l.
Proof. unfold sum. rewrite fold_left_Rplus. lra. Qed.

Lemma len_pos {A} (l : list A) : l <> [] -> 0 < len l.
Proof.
  intros Hl. unfold len. apply lt_0_INR.
  destruct l; [congruence | simpl; lia].
Qed.

Lemma len_nil {A} : len (@nil A) = 0.
Proof. reflexivity. Qed.

Lemma truediv_ok (x y : R) : y <> 0 -> truediv x y = ok (x / y).
Proof.
  intros Hy. unfold truediv.
  destruct (Reqb y 0) eqn:H; [apply Reqb_true in H; contradiction | reflexivity].
Qed.

Lemma truediv_zero (x : R) : truediv x 0 = throw ZeroDivisionError.
Proof.
  unfold truediv.
  destruct (Reqb 0 0) eqn:H; [reflexivity | apply Reqb_false in H; congruence].
Qed.

Lemma math_sqrt_ok (x : R) : 0 <= x -> math_sqrt x = ok (sqrt x).
Proof.
  intros Hx. unfold math_sqrt.
  destruct (Rltb x 0) eqn:H; [apply Rltb_true in H; lra | reflexivity].
Qed.

Lemma math_log_ok (x : R) : 0 < x -> math_log x = ok (ln x).
Proof.
  intros Hx. unfold math_log.
  destruct (Rleb x 0) eqn:H; [apply Rleb_true in H; lra | reflexivity].
Qed.

Lemma sum_squares_nonneg (m : R) (l : list R) :
  0 <= fold_right Rplus 0 (map (fun x => (x - m) ^ 2) l).
Proof.
  induction l as [|x l IH]; cbn [map fold_right]; [lra|].
  pose proof (pow2_ge_0 (x - m)). lra.
Qed.

Lemma sum_squares_zero (m : R) (l : list R) :
  fold_right Rplus 0 (map (fun x => (x - m) ^ 2) l) = 0
  <-> forall x, In x l -> x = m.
Proof.
  induction l as [|a l IH]; cbn [map fold_right In].
  - split; [intros _ x [] | reflexivity].
  - pose proof (sum_squares_nonneg m l) as Hl.
    pose proof (pow2_ge_0 (a - m)) as Ha.
    split.
    + intros H x [<-|Hx].
      * assert (Hz : (a - m) ^ 2 = 0) by lra.
        destruct (Req_dec (a - m) 0) as [E|E]; [lra|].
        apply (pow_nonzero _ 2) in E. contradiction.
      * apply IH; [lra | assumption].
    + intros H. rewrite (H a (or_introl eq_refl)).
      assert (Hz : fold_right Rplus 0 (map (fun x => (x - m) ^ 2) l) = 0).
      { apply IH. intros x Hx. apply H. now right. }
      rewrite Hz. simpl. lra.
Qed.

Lemma sum_constant (c : R) (l : list R) :
  (forall x, In x l -> x = c) ->
  fold_right Rplus 0 l = INR (List.length l) * c.
Proof.
  induction l as [|a l IH]; intros H.
  - simpl. lra.
  - cbn [fold_right List.length]. rewrite S_INR.
    rewrite IH by (intros x Hx; apply H; now right).
    rewrite (H a (or_introl eq_refl)). lra.
Qed.

Lemma mean_constant (c : R) (l : list R) :
  l <> [] -> (forall x, In x l -> x = c) -> Spec.mean l = c.
Proof.
  intros Hl H. unfold Spec.mean. rewrite (sum_constant c l H).
  pose proof (len_pos l Hl) as Hp. unfold len in Hp. field. lra.
Qed.

Lemma calculate_mean_ok (l : list R) :
  l <> [] ->
  Main2.DataStatisticsCalculator.calculate_mean l = ok (Spec.mean l).
Proof.
  intros Hl. unfold Main2.DataStatisticsCalculator.calculate_mean.
  pose proof (len_pos l Hl).
  rewrite truediv_ok by lra.
  unfold Spec.mean, len. now rewrite sum_fold_right.
Qed.

Lemma variance_nonneg (m : R) (l : list R) :
  l <> [] ->
  0 <= fold_right Rplus 0 (map (fun x => (x - m) ^ 2) l) / INR (List.length l).
Proof.
  intros Hl. pose proof (len_pos l Hl) as Hp. unfold len in Hp.
  pose proof (sum_squares_nonneg m l).
  apply Rmult_le_pos; [assumption|].
  apply Rlt_le, Rinv_0_lt_compat, Hp.
Qed.

Lemma calculate_standard_deviation_ok (l : list R) :
  l <> [] ->
  Main2.DataStatisticsCalculator.calculate_standard_deviation l
  = ok (Spec.standardDeviation l).
Proof.
  intros Hl. unfold Main2.DataStatisticsCalculator.calculate_standard_deviation.
  rewrite (calculate_mean_ok l Hl). cbn [rbind ok].
  pose proof (len_pos l Hl).
  rewrite truediv_ok by lra. cbn [rbind ok].
  rewrite sum_fold_right. unfold len.
  rewrite math_sqrt_ok by (apply variance_nonneg, Hl).
  reflexivity.
Qed.

Lemma standardDeviation_zero (l : list R) :
  l <> [] -> (Spec.standardDeviation l = 0 <-> Spec.all_equal l).
Proof.
  intros Hl. pose proof (len_pos l Hl) as Hp. unfold len in Hp.
  pose proof (variance_nonneg (Spec.mean l) l Hl) as Hv.
  pose proof (sum_squares_nonneg (Spec.mean l) l) as Hs.
  unfold Spec.standardDeviation. split.
  - intros H0. apply sqrt_eq_0 in H0; [|exact Hv].
    assert (Hz : fold_right Rplus 0
                   (map (fun x => (x - Spec.mean l) ^ 2) l) = 0).
    { apply Rmult_integral in H0. destruct H0 as [H0|H0]; [exact H0|].
      pose proof (Rinv_0_lt_compat _ Hp). lra. }
    pose proof (proj1 (sum_squares_zero _ _) Hz) as Hm.
    intros x y Hx Hy. now rewrite (Hm x Hx), (Hm y Hy).
  - intros Heq. destruct l as [|c l']; [congruence|].
    assert (Hc : forall x, In x (c :: l') -> x = c).
    { intros x Hx. apply Heq; [exact Hx | now left]. }
    rewrite (mean_constant c _ Hl Hc).
    rewrite (proj2 (sum_squares_zero c (c :: l')) Hc).
    unfold Rdiv. rewrite Rmult_0_l. apply sqrt_0.
Qed.

(** Turning the boolean comparisons of the context into propositions. *)
Ltac rprop :=
  repeat match goal with
  | H : Rltb _ _ = true |- _ => apply Rltb_true in H
  | H : Rltb _ _ = false |- _ => apply Rltb_false in H
  | H : Rleb _ _ = true |- _ => apply Rleb_true in H
  | H : Rleb _ _ = false |- _ => apply Rleb_false in H
  | H : Rgtb _ _ = true |- _ => apply Rgtb_true in H
  | H : Rgtb _ _ = false |- _ => apply Rgtb_false in H
  end.

(** ** Minimum and maximum *)

Lemma min_fold (l : list R) (x : R) :
  let m := fold_left (fun m y => if Rltb y m then y else m) l x in
  In m (x :: l) /\ forall y, In y (x :: l) -> m <= y.
Proof.
  revert x. induction l as [|a l IH]; intros x; cbn [fold_left].
  - split; [now left | intros y [<-|[]]; lra].
  - destruct (Rltb a x) eqn:E; rprop.
    + destruct (IH a) as [Hin Hle]. split.
      * destruct Hin as [<-|Hin]; [right; now left | right; now right].
      * intros y [<-|[<-|Hy]].
        -- specialize (Hle a (or_introl eq_refl)). lra.
        -- apply Hle. now left.
        -- apply Hle. now right.
    + destruct (IH x) as [Hin Hle]. split.
      * destruct Hin as [<-|Hin]; [now left | right; now right].
      * intros y [<-|[<-|Hy]].
        -- apply Hle. now left.
        -- specialize (Hle x (or_introl eq_refl)). lra.
        -- apply Hle. now right.
Qed.

Lemma max_fold (l : list R) (x : R) :
  let m := fold_left (fun m y => if Rgtb y m then y else m) l x in
  In m (x :: l) /\ forall y, In y (x :: l) -> y <= m.
Proof.
  revert x. induction l as [|a l IH]; intros x; cbn [fold_left].
  - split; [now left | intros y [<-|[]]; lra].
  - destruct (Rgtb a x) eqn:E; rprop.
    + destruct (IH a) as [Hin Hle]. split.
      * destruct Hin as [<-|Hin]; [right; now left | right; now right].
      * intros y [<-|[<-|Hy]].
        -- specialize (Hle a (or_introl eq_refl)). lra.
        -- apply Hle. now left.
        -- apply Hle. now right.
    + destruct (IH x) as [Hin Hle]. split.
      * destruct Hin as [<-|Hin]; [now left | right; now right].
      * intros y [<-|[<-|Hy]].
        -- apply Hle. now left.
        -- specialize (Hle x (or_introl eq_refl)). lra.
        -- apply Hle. now right.
Qed.

Lemma min_ok (l : list R) :
  l <> [] ->
  exists m, Py.min l = ok m /\ In m l /\ forall y, In y l -> m <= y.
Proof.
  intros Hl. destruct l as [|x l]; [congruence|].
  eexists. split; [reflexivity|]. apply min_fold.
Qed.

Lemma max_ok (l : list R) :
  l <> [] ->
  exists m, Py.max l = ok m /\ In m l /\ forall y, In y l -> y <= m.
Proof.
  intros Hl. destruct l as [|x l]; [congruence|].
  eexists. split; [reflexivity|]. apply max_fold.
Qed.

Lemma calculate_basic_stats_ok (l : list R) :
  l <> [] ->
  exists mx mn,
    Main2.DataStatisticsCalculator.calculate_basic_stats l
    = ok (mkStats (Spec.mean l) mx mn (Spec.standardDeviation l))
    /\ (In mx l /\ forall y, In y l -> y <= mx)
    /\ (In mn l /\ forall y, In y l -> mn <= y).
Proof.
  intros Hl.
  destruct (max_ok l Hl) as (mx & Emx & Hmx).
  destruct (min_ok l Hl) as (mn & Emn & Hmn).
  exists mx, mn. split; [|split; assumption].
  unfold Main2.DataStatisticsCalculator.calculate_basic_stats.
  rewrite (calculate_mean_ok l Hl), Emx, Emn,
    (calculate_standard_deviation_ok l Hl).
  reflexivity.
Qed.

(** ** The methods on a processed object *)

Lemma get_results_done_main (D : list Z) (o : option (list R)) :
  Main.DataProcessor.get_results (Main.DataProcessor.mk D true o)
  = (inr o, Main.DataProcessor.mk D true o).
Proof. reflexivity. Qed.

Lemma get_results_done_main2 (D : list Z) (l : list R) :
  Main2.DataProcessor.get_results
    (Main2.DataProcessor.mk D (Main2.mkProcessedData l true))
  = (inr l, Main2.DataProcessor.mk D (Main2.mkProcessedData l true)).
Proof. reflexivity. Qed.

Lemma calculate_std_dev_done_main (D : list Z) (l : list R) :
  Main.DataProcessor._calculate_std_dev
    (Main.DataProcessor.mk D true (Some l))
  = (Main2.DataStatisticsCalculator.calculate_standard_deviation l,
     Main.DataProcessor.mk D true (Some l)).
Proof.
  unfold Main.DataProcessor._calculate_std_dev,
    Main2.DataStatisticsCalculator.calculate_standard_deviation,
    Main2.DataStatisticsCalculator.calculate_mean, bind, get, lift.
  cbn [Main.DataProcessor._results iter ok].
  destruct (truediv (sum l) (len l)) as [e|m]; cbn [rbind]; [reflexivity|].
  destruct (truediv _ _) as [e|v]; reflexivity.
Qed.

Lemma calculate_stats_done_main (D : list Z) (l : list R) :
  Main.DataProcessor.calculate_stats
    (Main.DataProcessor.mk D true (Some l))
  = (Main2.DataStatisticsCalculator.calculate_basic_stats l,
     Main.DataProcessor.mk D true (Some l)).
Proof.
  unfold Main.DataProcessor.calculate_stats,
    Main2.DataStatisticsCalculator.calculate_basic_stats, bind, get, lift, ret.
  cbn [Main.DataProcessor._processed Main.DataProcessor._results negb iter ok].
  rewrite calculate_std_dev_done_main.
  unfold Main2.DataStatisticsCalculator.calculate_mean.
  destruct (truediv (sum l) (len l)) as [e|m]; cbn [rbind]; [reflexivity|].
  destruct (Py.max l) as [e|mx]; cbn [rbind]; [reflexivity|].
  destruct (Py.min l) as [e|mn]; cbn [rbind]; [reflexivity|].
  destruct (Main2.DataStatisticsCalculator.calculate_standard_deviation l);
    reflexivity.
Qed.

Lemma calculate_stats_done_main2 (D : list Z) (l : list R) :
  Main2.DataProcessor.calculate_stats
    (Main2.DataProcessor.mk D (Main2.mkProcessedData l true))
  = (Main2.DataStatisticsCalculator.calculate_basic_stats l,
     Main2.DataProcessor.mk D (Main2.mkProcessedData l true)).
Proof. reflexivity. Qed.

Lemma outliers_loop_filter (m sd t : R) (l acc : list (nat * R)) :
  Main.DataAnalyzer.outliers_loop m sd t l acc
  = acc ++ filter (Main2.DataAnalyzer.is_outlier m sd t) l.
Proof.
  revert acc. induction l as [|[idx value] l IH]; intros acc.
  - simpl. now rewrite app_nil_r.
  - cbn [Main.DataAnalyzer.outliers_loop filter]. rewrite IH.
    unfold Main2.DataAnalyzer.is_outlier at 2. cbn [snd].
    destruct (Rgtb (Rabs (value - m)) (t * sd)).
    + now rewrite <- app_assoc.
    + reflexivity.
Qed.

Lemma find_outliers_done_main (t : R) (D : list Z) (l : list R) :
  Main.DataAnalyzer.find_outliers t (Main.DataProcessor.mk D true (Some l))
  = (outliers_of t l, Main.DataProcessor.mk D true (Some l)).
Proof.
  unfold Main.DataAnalyzer.find_outliers, outliers_of, bind.
  rewrite get_results_done_main, calculate_stats_done_main.
  destruct (Main2.DataStatisticsCalculator.calculate_basic_stats l) as [e|s];
    [reflexivity|].
  unfold lift, ret. cbn [iter ok rbind].
  now rewrite outliers_loop_filter.
Qed.

Lemma find_outliers_done_main2 (t : R) (D : list Z) (l : list R) :
  Main2.DataAnalyzer.find_outliers t
    (Main2.DataProcessor.mk D (Main2.mkProcessedData l true))
  = (outliers_of t l,
     Main2.DataProcessor.mk D (Main2.mkProcessedData l true)).
Proof.
  unfold Main2.DataAnalyzer.find_outliers, outliers_of, bind.
  rewrite get_results_done_main2, calculate_stats_done_main2.
  destruct (Main2.DataStatisticsCalculator.calculate_basic_stats l) as [e|s];
    reflexivity.
Qed.

Lemma group_loop_filter (l : list R) (g : Groups) :
  Main.DataAnalyzer.group_loop l g
  = mkGroups (low g ++ low (groups_of l))
             (medium g ++ medium (groups_of l))
             (high g ++ high (groups_of l)).
Proof.
  revert g. induction l as [|v l IH]; intros g.
  - destruct g. simpl. now rewrite !app_nil_r.
  - cbn [Main.DataAnalyzer.group_loop]. rewrite IH.
    unfold groups_of. cbn [low medium high filter].
    destruct (Rltb v 10) eqn:E1; destruct (Rleb 10 v) eqn:E2;
      destruct (Rleb v 50) eqn:E3; destruct (Rgtb v 50) eqn:E4;
      cbn [andb low medium high];
      solve [ rewrite <- ?app_assoc; reflexivity
            | exfalso; rprop; lra ].
Qed.

Lemma group_values_done_main (D : list Z) (l : list R) :
  Main.DataAnalyzer.group_values (Main.DataProcessor.mk D true (Some l))
  = (ok (groups_of l), Main.DataProcessor.mk D true (Some l)).
Proof.
  unfold Main.DataAnalyzer.group_values, bind.
  rewrite get_results_done_main.
  unfold lift, ret. cbn [iter ok]. now rewrite group_loop_filter.
Qed.

Lemma group_values_done_main2 (D : list Z) (l : list R) :
  Main2.DataAnalyzer.group_values_by_ranges
    (Main2.DataProcessor.mk D (Main2.mkProcessedData l true))
  = (ok (groups_of l),
     Main2.DataProcessor.mk D (Main2.mkProcessedData l true)).
Proof. reflexivity. Qed.

Lemma outlier_lines_map (fmt : R -> string) (outliers : list (nat * R))
  (report : list string) :
  Main.ReportGenerator.outlier_lines fmt outliers report
  = report
    ++ map (fun p => ("Индекс " ++ str (fst p) ++ ": " ++ fmt (snd p))%string)
           outliers.
Proof.
  revert report. induction outliers as [|[idx value] l IH]; intros report.
  - simpl. now rewrite app_nil_r.
  - cbn [Main.ReportGenerator.outlier_lines map fst snd].
    rewrite IH, <- app_assoc. reflexivity.
Qed.

Lemma generate_text_report_done_main (fmt : R -> string) (D : list Z)
  (l : list R) :
  Main.ReportGenerator.generate_text_report fmt
    (Main.DataProcessor.mk D true (Some l))
  = (report_of fmt l, Main.DataProcessor.mk D true (Some l)).
Proof.
  unfold Main.ReportGenerator.generate_text_report, report_of, bind.
  rewrite calculate_stats_done_main.
  destruct (Main2.DataStatisticsCalculator.calculate_basic_stats l) as [e|s];
    [reflexivity|].
  rewrite find_outliers_done_main. cbn [rbind].
  destruct (outliers_of 2 l) as [e|outs]; [reflexivity|].
  rewrite group_values_done_main. unfold ret, ok. cbn [rbind].
  do 3 f_equal. cbn [app]. rewrite outlier_lines_map.
  unfold Main2.ReportGenerator.report_lines.
  rewrite <- !app_assoc. reflexivity.
Qed.

Lemma generate_text_report_done_main2 (fmt : R -> string) (D : list Z)
  (l : list R) :
  Main2.ReportGenerator.generate_text_report fmt
    (Main2.DataProcessor.mk D (Main2.mkProcessedData l true))
  = (report_of fmt l,
     Main2.DataProcessor.mk D (Main2.mkProcessedData l true)).
Proof.
  unfold Main2.ReportGenerator.generate_text_report, report_of, bind.
  rewrite calculate_stats_done_main2.
  destruct (Main2.DataStatisticsCalculator.calculate_basic_stats l) as [e|s];
    [reflexivity|].
  rewrite find_outliers_done_main2. cbn [rbind].
  destruct (outliers_of 2 l) as [e|outs]; [reflexivity|].
  rewrite group_values_done_main2. reflexivity.
Qed.

(** ** The methods on an object that is not processed yet *)

Lemma get_results_lazy_main (D : list Z) (o : option (list R)) :
  D <> [] ->
  Main.DataProcessor.get_results (Main.DataProcessor.mk D false o)
  = (inr (Some (processed D)),
     Main.DataProcessor.mk D true (Some (processed D))).
Proof.
  intros HD. unfold Main.DataProcessor.get_results, bind, get.
  cbn [Main.DataProcessor._processed negb].
  rewrite (process_data_main D false o HD). reflexivity.
Qed.

Lemma get_results_lazy_main2 (D : list Z) (l : list R) :
  D <> [] ->
  Main2.DataProcessor.get_results
    (Main2.DataProcessor.mk D (Main2.mkProcessedData l false))
  = (inr (processed D),
     Main2.DataProcessor.mk D (Main2.mkProcessedData (processed D) true)).
Proof.
  intros HD. unfold Main2.DataProcessor.get_results, bind, get.
  cbn [Main2.DataProcessor._results Main2.is_processed negb].
  rewrite (process_data_main2 D _ HD). reflexivity.
Qed.

Lemma calculate_stats_lazy_main (D : list Z) (o : option (list R)) :
  D <> [] ->
  Main.DataProcessor.calculate_stats (Main.DataProcessor.mk D false o)
  = Main.DataProcessor.calculate_stats
      (Main.DataProcessor.mk D true (Some (processed D))).
Proof.
  intros HD. unfold Main.DataProcessor.calculate_stats, bind, get.
  cbn [Main.DataProcessor._processed negb].
  rewrite (process_data_main D false o HD). reflexivity.
Qed.

Lemma find_outliers_lazy_main (t : R) (D : list Z) (o : option (list R)) :
  D <> [] ->
  Main.DataAnalyzer.find_outliers t (Main.DataProcessor.mk D false o)
  = Main.DataAnalyzer.find_outliers t
      (Main.DataProcessor.mk D true (Some (processed D))).
Proof.
  intros HD. unfold Main.DataAnalyzer.find_outliers, bind.
  now rewrite get_results_lazy_main, get_results_done_main.
Qed.

Lemma group_values_lazy_main (D : list Z) (o : option (list R)) :
  D <> [] ->
  Main.DataAnalyzer.group_values (Main.DataProcessor.mk D false o)
  = Main.DataAnalyzer.group_values
      (Main.DataProcessor.mk D true (Some (processed D))).
Proof.
  intros HD. unfold Main.DataAnalyzer.group_values, bind.
  now rewrite get_results_lazy_main, get_results_done_main.
Qed.

Lemma generate_text_report_lazy_main (fmt : R -> string) (D : list Z)
  (o : option (list R)) :
  D <> [] ->
  Main.ReportGenerator.generate_text_report fmt
    (Main.DataProcessor.mk D false o)
  = Main.ReportGenerator.generate_text_report fmt
      (Main.DataProcessor.mk D true (Some (processed D))).
Proof.
  intros HD. unfold Main.ReportGenerator.generate_text_report, bind.
  now rewrite calculate_stats_lazy_main.
Qed.

Lemma calculate_stats_lazy_main2 (D : list Z) (l : list R) :
  D <> [] ->
  Main2.DataProcessor.calculate_stats
    (Main2.DataProcessor.mk D (Main2.mkProcessedData l false))
  = Main2.DataProcessor.calculate_stats
      (Main2.DataProcessor.mk D (Main2.mkProcessedData (processed D) true)).
Proof.
  intros HD. unfold Main2.DataProcessor.calculate_stats, bind.
  now rewrite get_results_lazy_main2, get_results_done_main2.
Qed.

Lemma find_outliers_lazy_main2 (t : R) (D : list Z) (l : list R) :
  D <> [] ->
  Main2.DataAnalyzer.find_outliers t
    (Main2.DataProcessor.mk D (Main2.mkProcessedData l false))
  = Main2.DataAnalyzer.find_outliers t
      (Main2.DataProcessor.mk D (Main2.mkProcessedData (processed D) true)).
Proof.
  intros HD. unfold Main2.DataAnalyzer.find_outliers, bind.
  now rewrite get_results_lazy_main2, get_results_done_main2.
Qed.

Lemma group_values_lazy_main2 (D : list Z) (l : list R) :
  D <> [] ->
  Main2.DataAnalyzer.group_values_by_ranges
    (Main2.DataProcessor.mk D (Main2.mkProcessedData l false))
  = Main2.DataAnalyzer.group_values_by_ranges
      (Main2.DataProcessor.mk D (Main2.mkProcessedData (processed D) true)).
Proof.
  intros HD. unfold Main2.DataAnalyzer.group_values_by_ranges, bind.
  now rewrite get_results_lazy_main2, get_results_done_main2.
Qed.

Lemma generate_text_report_lazy_main2 (fmt : R -> string) (D : list Z)
  (l : list R) :
  D <> [] ->
  Main2.ReportGenerator.generate_text_report fmt
    (Main2.DataProcessor.mk D (Main2.mkProcessedData l false))
  = Main2.ReportGenerator.generate_text_report fmt
      (Main2.DataProcessor.mk D (Main2.mkProcessedData (processed D) true)).
Proof.
  intros HD. unfold Main2.ReportGenerator.generate_text_report, bind.
  now rewrite calculate_stats_lazy_main2.
Qed.

(** Every call on an unprocessed object with data is the same call on the
    processed object. *)
Lemma main_call_lazy (fmt : R -> string) (c : call) (D : list Z)
  (o : option (list R)) :
  D <> [] ->
  main_call fmt c (Main.DataProcessor.mk D false o)
  = main_call fmt c (Main.DataProcessor.mk D true (Some (processed D))).
Proof.
  intros HD. destruct c; unfold main_call, fmap, bind.
  - now rewrite !process_data_main.
  - now rewrite get_results_lazy_main, get_results_done_main.
  - now rewrite calculate_stats_lazy_main.
  - now rewrite find_outliers_lazy_main.
  - now rewrite group_values_lazy_main.
  - now rewrite generate_text_report_lazy_main.
Qed.

Lemma main2_call_lazy (fmt : R -> string) (c : call) (D : list Z)
  (l : list R) :
  D <> [] ->
  main2_call fmt c (Main2.DataProcessor.mk D (Main2.mkProcessedData l false))
  = main2_call fmt c
      (Main2.DataProcessor.mk D (Main2.mkProcessedData (processed D) true)).
Proof.
  intros HD. destruct c; unfold main2_call, fmap, bind.
  - now rewrite !process_data_main2.
  - now rewrite get_results_lazy_main2, get_results_done_main2.
  - now rewrite calculate_stats_lazy_main2.
  - now rewrite find_outliers_lazy_main2.
  - now rewrite group_values_lazy_main2.
  - now rewrite generate_text_report_lazy_main2.
Qed.

(** ** The two modules step by step *)

Lemma sim_call_processed (fmt : R -> string) (c : call) (D : list Z)
  (l : list R) :
  let p1 := Main.DataProcessor.mk D true (Some l) in
  let p2 := Main2.DataProcessor.mk D (Main2.mkProcessedData l true) in
  fst (main_call fmt c p1) = fst (main2_call fmt c p2)
  /\ sim (snd (main_call fmt c p1)) (snd (main2_call fmt c p2)).
Proof.
  intros p1 p2. subst p1 p2. destruct c; unfold main_call, main2_call, fmap, bind.
  - destruct D as [|d D].
    + split; [reflexivity | constructor].
    + rewrite process_data_main, process_data_main2 by discriminate.
      split; [reflexivity | constructor].
  - rewrite get_results_done_main, get_results_done_main2.
    split; [reflexivity | constructor].
  - rewrite calculate_stats_done_main, calculate_stats_done_main2.
    destruct (Main2.DataStatisticsCalculator.calculate_basic_stats l);
      split; (reflexivity || constructor).
  - rewrite find_outliers_done_main, find_outliers_done_main2.
    destruct (outliers_of threshold l); split; (reflexivity || constructor).
  - rewrite group_values_done_main, group_values_done_main2.
    split; [reflexivity | constructor].
  - rewrite generate_text_report_done_main, generate_text_report_done_main2.
    destruct (report_of fmt l); split; (reflexivity || constructor).
Qed.

Lemma sim_call (fmt : R -> string) (c : call) (p1 : Main.DataProcessor.t)
  (p2 : Main2.DataProcessor.t) :
  sim p1 p2 ->
  fst (main_call fmt c p1) = fst (main2_call fmt c p2)
  /\ sim (snd (main_call fmt c p1)) (snd (main2_call fmt c p2)).
Proof.
  intros [D l | D o l].
  - apply sim_call_processed.
  - destruct D as [|d D].
    + destruct c; split; (reflexivity || constructor).
    + rewrite main_call_lazy, main2_call_lazy by discriminate.
      apply sim_call_processed.
Qed.

Lemma sim_trace (fmt : R -> string) (calls : list call)
  (p1 : Main.DataProcessor.t) (p2 : Main2.DataProcessor.t) :
  sim p1 p2 ->
  trace (main_call fmt) calls p1 = trace (main2_call fmt) calls p2.
Proof.
  revert p1 p2. induction calls as [|c calls IH]; intros p1 p2 Hsim.
  - reflexivity.
  - cbn [trace]. destruct (sim_call fmt c p1 p2 Hsim) as [Hr Hs].
    destruct (main_call fmt c p1) as [r1 q1], (main2_call fmt c p2) as [r2 q2].
    cbn [fst snd] in Hr, Hs. subst r2. f_equal. now apply IH.
Qed.

Lemma sim_new (D : list Z) :
  sim (Main.DataProcessor.new D) (Main2.DataProcessor.new D).
Proof. constructor. Qed.

(** ** Indices *)



Lemma filter_enumerate_sorted {A} (f : nat * A -> bool) (l : list A)
  (k : nat) :
  StronglySorted lt (map fst (filter f (enumerate_from k l)))
  /\ Forall (le k) (map fst (filter f (enumerate_from k l))).
Proof.
  revert k. induction l as [|x l IH]; intros k; cbn [enumerate_from filter].
  - split; constructor.
  - destruct (IH (S k)) as [Hs Hf].
    assert (Hk : Forall (le k) (map fst (filter f (enumerate_from (S k) l)))).
    { eapply Forall_impl; [|exact Hf]. cbn. intros; lia. }
    destruct (f (k, x)); cbn [map fst].
    + split; constructor; auto.
    + split; assumption.
Qed.

Lemma filter_subseq {A} (f : A -> bool) (l : list A) : subseq (filter f l) l.
Proof.
  induction l as [|x l IH]; cbn [filter].
  - constructor.
  - destruct (f x); now constructor.
Qed.

Lemma processed_nonempty (D : list Z) : D <> [] -> processed D <> [].
Proof. destruct D; [congruence | discriminate]. Qed.

Lemma groups_of_length (rs : list R) :
  (List.length (low (groups_of rs)) + List.length (medium (groups_of rs))
   + List.length (high (groups_of rs)) = List.length rs)%nat.
Proof.
  cbn [groups_of low medium high].
  induction rs as [|v rs IH]; [reflexivity|]. cbn [filter].
  destruct (Rltb v 10) eqn:E1; destruct (Rleb 10 v) eqn:E2;
    destruct (Rleb v 50) eqn:E3; destruct (Rgtb v 50) eqn:E4;
    cbn [andb List.length];
    solve [ lia | exfalso; rprop; lra ].
Qed.


(** ** Worked inputs *)

Lemma processed_4 : processed [4%Z] = [16].
Proof.
  unfold processed, Spec.selectTransform, Spec.adjustRange. cbn [map Z.even].
  f_equal. destruct (Rgt_dec (4 ^ 2) 100); [lra|].
  destruct (Rlt_dec (4 ^ 2) 1); lra.
Qed.

Lemma sqrt_3_bounds : 1 <= sqrt 3 <= 100.
Proof.
  split.
  - rewrite <- sqrt_1 at 1. apply sqrt_le_1_alt. lra.
  - replace 100 with (sqrt (100 * 100)) by (apply sqrt_square; lra).
    apply sqrt_le_1_alt. lra.
Qed.

Lemma processed_3 : processed [3%Z] = [sqrt 3].
Proof.
  unfold processed, Spec.selectTransform, Spec.adjustRange. cbn [map Z.even].
  rewrite (Rabs_pos_eq 3) by lra. pose proof sqrt_3_bounds.
  f_equal. destruct (Rgt_dec (sqrt 3) 100); [lra|].
  destruct (Rlt_dec (sqrt 3) 1); lra.
Qed.

Example get_results_of_4 :
  fst (Main.DataProcessor.get_results (Main.DataProcessor.new [4%Z]))
  = inr (Some [16])
  /\ fst (Main2.DataProcessor.get_results (Main2.DataProcessor.new [4%Z]))
     = inr [16].
Proof.
  unfold Main.DataProcessor.new, Main2.DataProcessor.new.
  rewrite get_results_lazy_main, get_results_lazy_main2 by discriminate.
  now rewrite processed_4.
Qed.

Example get_results_of_3 :
  fst (Main.DataProcessor.get_results (Main.DataProcessor.new [3%Z]))
  = inr (Some [sqrt 3])
  /\ fst (Main2.DataProcessor.get_results (Main2.DataProcessor.new [3%Z]))
     = inr [sqrt 3].
Proof.
  unfold Main.DataProcessor.new, Main2.DataProcessor.new.
  rewrite get_results_lazy_main, get_results_lazy_main2 by discriminate.
  now rewrite processed_3.
Qed.

Lemma calculate_basic_stats_16 :
  Main2.DataStatisticsCalculator.calculate_basic_stats [16]
  = ok (mkStats 16 16 16 0).
Proof.
  destruct (calculate_basic_stats_ok [16]) as (mx & mn & E & Hmx & Hmn);
    [discriminate|].
  destruct Hmx as [[<-|[]] _], Hmn as [[<-|[]] _].
  rewrite E. do 2 f_equal.
  - unfold Spec.mean. cbn. field.
  - apply (standardDeviation_zero [16]); [discriminate|].
    intros x y [<-|[]] [<-|[]]. reflexivity.
Qed.

(** The report for the dataset [[4]]: the four statistics are 16, 16, 16 and
    0, there is no outlier, and the one value is in the medium group. *)
Example report_of_4 (fmt : R -> string) :
  fst (Main.ReportGenerator.generate_text_report fmt
         (Main.DataProcessor.new [4%Z]))
  = inr (join_lines
           [ "=== Статистический отчет ===";
             "Среднее значение: " ++ fmt 16;
             "Максимальное значение: " ++ fmt 16;
             "Минимальное значение: " ++ fmt 16;
             "Стандартное отклонение: " ++ fmt 0;
             newline ++ "=== Выбросы ===";
             newline ++ "=== Группировка значений ===";
             "Низкие значения (кол-во): 0";
             "Средние значения (кол-во): 1";
             "Высокие значения (кол-во): 0" ]%string).
Proof.
  unfold Main.DataProcessor.new.
  rewrite generate_text_report_lazy_main by discriminate.
  rewrite generate_text_report_done_main, processed_4.
  unfold report_of, outliers_of. rewrite calculate_basic_stats_16.
  unfold groups_of, enumerate, Main2.DataAnalyzer.is_outlier.
  cbn [rbind ok mean std_dev enumerate_from filter snd andb].
  assert (H1 : Rgtb (Rabs (16 - 16)) (2 * 0) = false).
  { apply Rgtb_false. replace (16 - 16) with 0 by lra.
    rewrite Rabs_R0. lra. }
  assert (H2 : Rltb 16 10 = false) by (apply Rltb_false; lra).
  assert (H3 : Rleb 10 16 = true) by (apply Rleb_true; lra).
  assert (H4 : Rleb 16 50 = true) by (apply Rleb_true; lra).
  assert (H5 : Rgtb 16 50 = false) by (apply Rgtb_false; lra).
  rewrite H1, H2, H3, H4, H5. reflexivity.
Qed.

(** ** The binary64 model: the two modules agree *)

Lemma b64_process_item_eq (n : Z) :
  B64.Main.process_item n = B64.Main2.process_item n.
Proof. reflexivity. Qed.

Lemma b64_process_loop_eq (l : list Z) (acc : list B64.num) :
  B64.Main.process_loop l acc = B64.Main2.process_loop l acc.
Proof.
  revert acc. induction l as [|n l IH]; intros acc; [reflexivity|].
  cbn [B64.Main.process_loop B64.Main2.process_loop].
  rewrite b64_process_item_eq.
  destruct (B64.Main2.process_item n) as [e|v]; cbn; [reflexivity | apply IH].
Qed.

Lemma b64_process_eq (D : list Z) : B64.Main.process D = B64.Main2.process D.
Proof. destruct D; [reflexivity | apply b64_process_loop_eq]. Qed.

Lemma b64_stats_eq (rs : list B64.num) :
  B64.Main.calculate_stats rs = B64.Main2.calculate_basic_stats rs.
Proof. reflexivity. Qed.



(** ** The binary64 model: which pairs are outliers *)






(** ** The binary64 model: signs *)

Lemma shr_1_nonneg (mrs : shr_record) :
  (0 <= shr_m mrs)%Z -> (0 <= shr_m (shr_1 mrs))%Z.
Proof.
  destruct mrs as [m r s]. cbn [shr_m].
  destruct m as [|p|p]; [| |lia]; intros _;
    [|destruct p]; cbn; lia.
Qed.

Lemma iter_pos_shr_1_nonneg (p : positive) (mrs : shr_record) :
  (0 <= shr_m mrs)%Z -> (0 <= shr_m (iter_pos shr_1 p mrs))%Z.
Proof.
  revert mrs. induction p as [p IH|p IH|]; intros mrs H; cbn [iter_pos].
  - apply IH, IH, shr_1_nonneg, H.
  - apply IH, IH, H.
  - apply shr_1_nonneg, H.
Qed.

Lemma shr_fexp_nonneg (m e : Z) (l : location) :
  (0 <= m)%Z ->
  (0 <= shr_m (fst (shr_fexp B64.prec B64.emax m e l)))%Z.
Proof.
  intros Hm. unfold shr_fexp, shr.
  assert (H0 : (0 <= shr_m (shr_record_of_loc m l))%Z).
  { destruct l as [|[]]; exact Hm. }
  destruct (_ - e)%Z; cbn [fst]; [exact H0 | | exact H0].
  now apply iter_pos_shr_1_nonneg.
Qed.

Lemma round_nearest_even_nonneg (mx : Z) (lx : location) :
  (0 <= mx)%Z -> (0 <= round_nearest_even mx lx)%Z.
Proof.
  intros Hm. destruct lx as [|[]]; cbn [round_nearest_even]; try lia.
  destruct (Z.even mx); lia.
Qed.

(** Rounding a mantissa that is not negative gives a zero, a number or an
    infinity of the sign asked for, never NaN. *)
Lemma binary_round_aux_sign (sx : bool) (mx ex : Z) (lx : location) :
  (0 <= mx)%Z ->
  match binary_round_aux B64.prec B64.emax sx mx ex lx with
  | S754_nan => False
  | S754_zero s | S754_infinity s | S754_finite s _ _ => s = sx
  end.
Proof.
  intros Hm. unfold binary_round_aux.
  pose proof (shr_fexp_nonneg mx ex lx Hm) as H1.
  destruct (shr_fexp B64.prec B64.emax mx ex lx) as [mrs' e'].
  cbn [fst] in H1.
  pose proof (shr_fexp_nonneg
                (round_nearest_even (shr_m mrs') (loc_of_shr_record mrs'))
                e' loc_Exact
                (round_nearest_even_nonneg _ _ H1)) as H2.
  destruct (shr_fexp B64.prec B64.emax _ e' loc_Exact) as [mrs'' e''].
  cbn [fst] in H2.
  destruct (shr_m mrs'') as [|m|m]; [reflexivity | | lia].
  destruct (Z.leb e'' (Z.sub B64.emax B64.prec)); reflexivity.
Qed.

Lemma binary_round_aux_nonneg (mx ex : Z) (lx : location) :
  (0 <= mx)%Z ->
  SFleb B64.fzero (binary_round_aux B64.prec B64.emax false mx ex lx) = true.
Proof.
  intros Hm. pose proof (binary_round_aux_sign false mx ex lx Hm) as H.
  destruct (binary_round_aux B64.prec B64.emax false mx ex lx) as [s|s| |s m e];
    [| | destruct H |]; subst s; reflexivity.
Qed.

Lemma SFdiv_core_binary_nonneg (m1 m2 : positive) (e1 e2 : Z) :
  (0 <= fst (fst (SFdiv_core_binary B64.prec B64.emax
                    (Zpos m1) e1 (Zpos m2) e2)))%Z.
Proof.
  unfold SFdiv_core_binary. cbv zeta.
  set (s := (e1 - e2 - _)%Z).
  set (m' := match s with
             | Zpos _ => Z.shiftl (Zpos m1) s
             | Z0 => Zpos m1
             | Zneg _ => Z0
             end).
  assert (Hm' : (0 <= m')%Z).
  { unfold m'. destruct s; try lia. apply Z.shiftl_nonneg. lia. }
  pose proof (Z.div_pos m' (Zpos m2) Hm' eq_refl) as Hq.
  unfold Z.div in Hq.
  destruct (Z.div_eucl m' (Zpos m2)) as [q r]. exact Hq.
Qed.

Lemma SFsqrt_core_binary_nonneg (m : positive) (e : Z) :
  (0 <= fst (fst (SFsqrt_core_binary B64.prec B64.emax (Zpos m) e)))%Z.
Proof.
  unfold SFsqrt_core_binary. cbv zeta.
  set (s := (e - _)%Z).
  set (m' := match s with
             | Zpos _ => Z.shiftl (Zpos m) s
             | Z0 => Zpos m
             | Zneg _ => Z0
             end).
  assert (Hm' : (0 <= m')%Z).
  { unfold m'. destruct s; try lia. apply Z.shiftl_nonneg. lia. }
  pose proof (Z.sqrtrem_spec m' Hm') as Hq.
  destruct (Z.sqrtrem m') as [q r]. cbn [fst]. lia.
Qed.

(** [0.0 <= x / y], [0.0 <= x * y] and [0.0 <= sqrt x] for [0.0 <= x] and a
    positive number [y]. *)
Lemma SFdiv_nonneg (x : spec_float) (my : positive) (ey : Z) :
  SFleb B64.fzero x = true ->
  SFleb B64.fzero
    (SFdiv B64.prec B64.emax x (S754_finite false my ey)) = true.
Proof.
  destruct x as [s|s| |s m e]; try destruct s; intros H;
    try discriminate; try reflexivity.
  cbn [SFdiv xorb].
  pose proof (SFdiv_core_binary_nonneg m my e ey) as Hq.
  destruct (SFdiv_core_binary B64.prec B64.emax (Zpos m) e (Zpos my) ey)
    as [[mz ez] lz].
  now apply binary_round_aux_nonneg.
Qed.

Lemma SFmul_nonneg (x : spec_float) (my : positive) (ey : Z) :
  SFleb B64.fzero x = true ->
  SFleb B64.fzero
    (SFmul B64.prec B64.emax x (S754_finite false my ey)) = true.
Proof.
  destruct x as [s|s| |s m e]; try destruct s; intros H;
    try discriminate; try reflexivity.
  cbn [SFmul xorb]. apply binary_round_aux_nonneg. lia.
Qed.

Lemma SFsqrt_nonneg (x : spec_float) :
  SFleb B64.fzero x = true ->
  SFleb B64.fzero (SFsqrt B64.prec B64.emax x) = true.
Proof.
  destruct x as [s|s| |s m e]; try destruct s; intros H;
    try discriminate; try reflexivity.
  cbn [SFsqrt].
  pose proof (SFsqrt_core_binary_nonneg m e) as Hq.
  destruct (SFsqrt_core_binary B64.prec B64.emax (Zpos m) e) as [[mz ez] lz].
  now apply binary_round_aux_nonneg.
Qed.

(** [float(z)] of an integer that is not negative. *)
Lemma of_int_nonneg (z : Z) (f : spec_float) :
  (0 <= z)%Z -> B64.of_int z = inr f ->
  SFleb B64.fzero f = true /\ B64.is_finite f = true.
Proof.
  intros Hz. unfold B64.of_int.
  destruct z as [|p|p]; [| |lia].
  - cbn. intros H. injection H as <-. now split.
  - cbn [binary_normalize]. unfold binary_round.
    destruct (shl_align p 0 _) as [mz ez].
    pose proof (binary_round_aux_sign false (Zpos mz) ez loc_Exact
                  ltac:(lia)) as Hs.
    destruct (binary_round_aux B64.prec B64.emax false (Zpos mz) ez loc_Exact)
      as [s|s| |s m e]; [| |destruct Hs|]; subst s; intros H;
      try discriminate; injection H as <-; now split.
Qed.

Lemma of_int_10 :
  exists m e, B64.of_int 10 = inr (S754_finite false m e).
Proof. eexists. eexists. vm_compute. reflexivity. Qed.

(** [0 <= x] for a [float] is the comparison with [0.0]. *)
Lemma nonneg_Float (f : spec_float) :
  B64.nonneg (B64.Float f) = SFleb B64.fzero f.
Proof.
  unfold B64.nonneg, B64.leb. cbn [B64.compare].
  destruct f as [s|s| |s m e]; try destruct s; try reflexivity;
    destruct e as [|p|p]; try reflexivity;
    cbn [B64.compare_int_float cond_Zopp Z.opp];
    pose proof (Z.pow_pos_nonneg 2 (Zpos p) eq_refl ltac:(lia)) as H;
    destruct (2 ^ Zpos p)%Z as [|q|q]; try lia; reflexivity.
Qed.

Lemma nonneg_Int (z : Z) : B64.nonneg (B64.Int z) = (0 <=? z)%Z.
Proof.
  unfold B64.nonneg, B64.leb. cbn [B64.compare]. unfold Z.leb.
  destruct (0 ?= z)%Z; reflexivity.
Qed.

(** ** The binary64 model: the processed values *)

Lemma int_truediv_pos (p q : positive) (f : spec_float) :
  B64.int_truediv (Zpos p) (Zpos q) = inr f -> SFleb B64.fzero f = true.
Proof.
  unfold B64.int_truediv.
  change (Zpos p <? 0)%Z with false. change (Zpos q <? 0)%Z with false.
  cbn [Z.abs Z.to_pos].
  pose proof (SFdiv_nonneg (S754_finite false p 0) q 0 eq_refl) as H.
  destruct (SFdiv B64.prec B64.emax _ _) as [s|s| |s m e]; intros E;
    try discriminate; injection E as <-; exact H.
Qed.

Lemma b64_transform_even_number_nonneg (n : Z) :
  B64.nonneg (B64.Main2.transform_even_number n) = true.
Proof.
  unfold B64.Main2.transform_even_number. rewrite nonneg_Int.
  apply Z.leb_le. rewrite Z.pow_2_r. nia.
Qed.

Lemma b64_math_sqrt_nonneg (z : Z) (r : spec_float) :
  B64.math_sqrt (B64.Int (Z.abs z)) = inr r -> SFleb B64.fzero r = true.
Proof.
  unfold B64.math_sqrt. cbn [B64.to_float].
  destruct (B64.of_int (Z.abs z)) as [e|f] eqn:Ef; cbn [B64.rbind];
    [discriminate|].
  destruct (of_int_nonneg (Z.abs z) f (Z.abs_nonneg z) Ef) as [Hf _].
  destruct (SFltb f B64.fzero); [discriminate|].
  intros H. injection H as <-. now apply SFsqrt_nonneg.
Qed.

Lemma b64_transform_odd_number_nonneg (n : Z) (r : B64.num) :
  B64.Main2.transform_odd_number n = inr r -> B64.nonneg r = true.
Proof.
  unfold B64.Main2.transform_odd_number. cbn [B64.abs].
  destruct (B64.math_sqrt (B64.Int (Z.abs n))) as [e|f] eqn:Ef;
    cbn [B64.rbind]; [discriminate|].
  intros H. injection H as <-. rewrite nonneg_Float.
  now apply (b64_math_sqrt_nonneg n).
Qed.

Lemma b64_adjust_value_range_nonneg (v r : B64.num) :
  B64.nonneg v = true ->
  B64.Main2.adjust_value_range v = inr r ->
  B64.nonneg r = true.
Proof.
  intros Hv. unfold B64.Main2.adjust_value_range.
  destruct of_int_10 as (m10 & e10 & E10).
  destruct (B64.gtb v (B64.Int 100)).
  - destruct v as [a|f].
    + cbn [B64.truediv]. rewrite nonneg_Int in Hv. apply Z.leb_le in Hv.
      destruct a as [|p|p]; [| |lia].
      * cbn. intros H. injection H as <-. reflexivity.
      * destruct (B64.int_truediv (Zpos p) 10) as [e|f] eqn:Ef;
          cbn [B64.rbind]; [discriminate|].
        intros H. injection H as <-. rewrite nonneg_Float.
        now apply (int_truediv_pos p 10).
    + cbn [B64.truediv B64.to_float B64.rbind B64.ok]. rewrite E10.
      cbn [B64.rbind B64.is_zero B64.ok].
      intros H. injection H as <-. rewrite nonneg_Float in *.
      now apply SFdiv_nonneg.
  - destruct (B64.ltb v (B64.Int 1)).
    + destruct v as [a|f].
      * cbn [B64.mul B64.ok]. intros H. injection H as <-.
        rewrite nonneg_Int in *. apply Z.leb_le in Hv. apply Z.leb_le. lia.
      * cbn [B64.mul B64.to_float B64.rbind B64.ok]. rewrite E10.
        cbn [B64.rbind B64.ok].
        intros H. injection H as <-. rewrite nonneg_Float in *.
        now apply SFmul_nonneg.
    + intros H. injection H as <-. exact Hv.
Qed.

Lemma b64_process_item_nonneg (n : Z) (v : B64.num) :
  B64.Main2.process_item n = inr v -> B64.nonneg v = true.
Proof.
  unfold B64.Main2.process_item.
  destruct (n mod 2 =? 0)%Z; cbn [B64.rbind B64.ok].
  - apply b64_adjust_value_range_nonneg, b64_transform_even_number_nonneg.
  - destruct (B64.Main2.transform_odd_number n) as [e|r] eqn:Er;
      cbn [B64.rbind]; [discriminate|].
    apply b64_adjust_value_range_nonneg.
    now apply (b64_transform_odd_number_nonneg n).
Qed.

(** The loop of [process_data] stores, index by index, what [process_item]
    returns. *)
Lemma b64_process_loop_items (l : list Z) (acc rs : list B64.num) :
  B64.Main2.process_loop l acc = inr rs ->
  exists rs',
    rs = acc ++ rs'
    /\ Forall2 (fun d v => B64.Main2.process_item d = inr v) l rs'.
Proof.
  revert acc. induction l as [|n l IH]; intros acc H.
  - cbn in H. injection H as <-. exists []. split; [now rewrite app_nil_r|].
    constructor.
  - cbn [B64.Main2.process_loop] in H.
    destruct (B64.Main2.process_item n) as [e|v] eqn:Ev; cbn [B64.rbind] in H;
      [discriminate|].
    destruct (IH _ H) as (rs' & -> & Hall). exists (v :: rs'). split.
    + now rewrite <- app_assoc.
    + now constructor.
Qed.

Lemma b64_process_items (D : list Z) (rs : list B64.num) :
  B64.Main2.process D = inr rs ->
  D <> [] /\ Forall2 (fun d v => B64.Main2.process_item d = inr v) D rs.
Proof.
  destruct D as [|d D]; [discriminate|]. intros H. split; [discriminate|].
  unfold B64.Main2.process in H.
  destruct (b64_process_loop_items _ _ _ H) as (rs' & -> & Hall). exact Hall.
Qed.

Lemma Forall2_nth_error_l {A B} (P : A -> B -> Prop) (l : list A)
  (l' : list B) :
  Forall2 P l l' ->
  forall i a, nth_error l i = Some a ->
    exists b, nth_error l' i = Some b /\ P a b.
Proof.
  induction 1 as [|x y l l' Hxy Hall IH]; intros i a Hi.
  - destruct i; discriminate.
  - destruct i as [|i]; cbn in *.
    + injection Hi as <-. now exists y.
    + now apply IH.
Qed.

Lemma Forall2_In_r {A B} (P : A -> B -> Prop) (l : list A) (l' : list B) :
  Forall2 P l l' -> forall b, In b l' -> exists a, In a l /\ P a b.
Proof.
  induction 1 as [|x y l l' Hxy Hall IH]; intros b Hb; [destruct Hb|].
  destruct Hb as [<-|Hb].
  - exists x. split; [now left | exact Hxy].
  - destruct (IH b Hb) as (a & Ha & Hab). exists a. split; [now right|].
    exact Hab.
Qed.

Lemma b64_processed_nonneg (D : list Z) (rs : list B64.num) :
  B64.Main2.process D = inr rs ->
  forall v, In v rs -> B64.nonneg v = true.
Proof.
  intros H v Hv. destruct (b64_process_items D rs H) as [_ Hall].
  destruct (Forall2_In_r _ _ _ Hall v Hv) as (d & _ & Hd).
  now apply (b64_process_item_nonneg d).
Qed.

(** ** The binary64 model: minimum and groups *)

Lemma fold_left_choice_In {A} (pick : A -> A -> bool) (l : list A) (x : A) :
  In (fold_left (fun m y => if pick y m then y else m) l x) (x :: l).
Proof.
  revert x. induction l as [|y l IH]; intros x; [now left|].
  cbn [fold_left]. destruct (IH (if pick y x then y else x)) as [E|Hin].
  - rewrite <- E. destruct (pick y x); [right; now left | now left].
  - right. now right.
Qed.

Lemma b64_min_In (rs : list B64.num) (m : B64.num) :
  B64.min rs = inr m -> In m rs.
Proof.
  destruct rs as [|x l]; [discriminate|]. cbn [B64.min B64.ok].
  intros H. injection H as <-.
  apply (fold_left_choice_In (fun y m => B64.ltb y m)).
Qed.

Lemma b64_max_In (rs : list B64.num) (m : B64.num) :
  B64.max rs = inr m -> In m rs.
Proof.
  destruct rs as [|x l]; [discriminate|]. cbn [B64.max B64.ok].
  intros H. injection H as <-.
  apply (fold_left_choice_In (fun y m => B64.gtb y m)).
Qed.

Lemma b64_stats_min_max (rs : list B64.num) (s : B64.Stats) :
  B64.Main2.calculate_basic_stats rs = inr s ->
  B64.Main2.calculate_mean rs = inr (B64.mean s)
  /\ B64.max rs = inr (B64.max_ s)
  /\ B64.min rs = inr (B64.min_ s)
  /\ B64.Main2.calculate_standard_deviation rs = inr (B64.std_dev s).
Proof.
  unfold B64.Main2.calculate_basic_stats.
  destruct (B64.Main2.calculate_mean rs) as [e|m]; cbn [B64.rbind];
    [discriminate|].
  destruct (B64.max rs) as [e|mx]; cbn [B64.rbind]; [discriminate|].
  destruct (B64.min rs) as [e|mn]; cbn [B64.rbind]; [discriminate|].
  destruct (B64.Main2.calculate_standard_deviation rs) as [e|sd];
    cbn [B64.rbind]; [discriminate|].
  intros H. injection H as <-. now repeat split.
Qed.

Lemma b64_group_loop_low (l : list B64.num) (g : B64.Groups) :
  B64.low (B64.Main.group_loop l g)
  = B64.low g ++ filter (fun v => B64.ltb v (B64.Int 10)) l.
Proof.
  revert g. induction l as [|v l IH]; intros g.
  - cbn. now rewrite app_nil_r.
  - cbn [B64.Main.group_loop filter]. rewrite IH.
    destruct (B64.ltb v (B64.Int 10)); cbn [B64.low].
    + now rewrite <- app_assoc.
    + destruct (andb _ _); reflexivity.
Qed.

Lemma b64_group_values_low (rs : list B64.num) :
  B64.low (B64.Main.group_values rs)
  = B64.low (B64.Main2.group_values_by_ranges rs).
Proof. unfold B64.Main.group_values. now rewrite b64_group_loop_low. Qed.

(** ** The binary64 model: values that all equal their mean *)









(** ** The binary64 model: no NaN from finite values *)

Lemma binary_round_not_nan (s : bool) (m : positive) (e : Z) :
  binary_round B64.prec B64.emax s m e <> S754_nan.
Proof.
  unfold binary_round. destruct (shl_align m e _) as [mz ez].
  pose proof (binary_round_aux_sign s (Zpos mz) ez loc_Exact ltac:(lia)) as H.
  intros E. rewrite E in H. exact H.
Qed.

Lemma binary_normalize_not_nan (m e : Z) (s : bool) :
  binary_normalize B64.prec B64.emax m e s <> S754_nan.
Proof.
  destruct m; cbn [binary_normalize];
    [discriminate | apply binary_round_not_nan | apply binary_round_not_nan].
Qed.

Lemma of_int_finite (z : Z) (f : spec_float) :
  B64.of_int z = inr f -> B64.is_finite f = true.
Proof.
  unfold B64.of_int.
  pose proof (binary_normalize_not_nan z 0 false) as H.
  destruct (binary_normalize B64.prec B64.emax z 0 false) as [s|s| |s m e];
    intros E; try discriminate; try (now destruct H);
    injection E as <-; reflexivity.
Qed.

Lemma to_float_finite (x : B64.num) (f : spec_float) :
  B64.finite_num x = true -> B64.to_float x = inr f ->
  B64.is_finite f = true.
Proof.
  destruct x as [z|g]; cbn [B64.finite_num B64.to_float B64.ok].
  - intros _. apply of_int_finite.
  - intros Hg E. injection E as <-. exact Hg.
Qed.











(** ** The claims *)

(** C1: for a non-empty list of integers of absolute value at most 10^150,
    [process_data] of either module succeeds and stores a list of the same
    length whose element at every index is [adjustRange (selectTransform d)]
    for the integer [d] at that index; [get_results] returns that list.  The
    bound keeps the square of an even number, divided by 10, and the
    conversion of an odd number to a float inside the range of binary64.
    In binary64 arithmetic and for any data, a list that the loop returns
    has the length of the data and holds at every index what the
    transformation and the rescaling step return for the integer there, in
    both modules. *)
Theorem process_data_elementwise (D : list Z) (HD : D <> [])
  (Hsmall : Forall (fun d => (Z.abs d <= 10 ^ 150)%Z) D) :
  (exists out : list R,
     Main.DataProcessor.process_data (Main.DataProcessor.new D)
     = (inr tt, Main.DataProcessor.mk D true (Some out))
     /\ Main2.DataProcessor.process_data (Main2.DataProcessor.new D)
        = (inr tt, Main2.DataProcessor.mk D (Main2.mkProcessedData out true))
     /\ fst (Main.DataProcessor.get_results (Main.DataProcessor.new D))
        = inr (Some out)
     /\ fst (Main2.DataProcessor.get_results (Main2.DataProcessor.new D))
        = inr out
     /\ List.length out = List.length D
     /\ forall (i : nat) (d : Z),
          nth_error D i = Some d ->
          nth_error out i
          = Some (Spec.adjustRange (Spec.selectTransform d)))
  /\ (forall rs : list B64.num,
        B64.Main2.process D = inr rs ->
        B64.Main.process D = inr rs
        /\ List.length rs = List.length D
        /\ forall (i : nat) (d : Z),
             nth_error D i = Some d ->
             exists v : B64.num,
               nth_error rs i = Some v
               /\ B64.Main.process_item d = inr v
               /\ B64.rbind
                    (if (d mod 2 =? 0)%Z
                     then inr (B64.Main2.transform_even_number d)
                     else B64.Main2.transform_odd_number d)
                    B64.Main2.adjust_value_range
                  = inr v).
Proof.
  split.
  - exists (processed D).
    unfold Main.DataProcessor.new, Main2.DataProcessor.new.
    repeat split.
    + now apply process_data_main.
    + now apply process_data_main2.
    + now rewrite get_results_lazy_main.
    + now rewrite get_results_lazy_main2.
    + apply length_map.
    + intros i d Hi. unfold processed. now rewrite nth_error_map, Hi.
  - intros rs Hrs. destruct (b64_process_items D rs Hrs) as [_ Hall].
    split; [now rewrite b64_process_eq|].
    split; [symmetry; apply (Forall2_length Hall)|].
    intros i d Hi.
    destruct (Forall2_nth_error_l _ _ _ Hall i d Hi) as (v & Hv & Hd).
    exists v. split; [exact Hv|]. split; [|exact Hd].
    now rewrite b64_process_item_eq.
Qed.

Lemma process_data_elementwise_witness :
  (exists out : list R,
     Main.DataProcessor.process_data (Main.DataProcessor.new [4; 3]%Z)
     = (inr tt, Main.DataProcessor.mk [4; 3]%Z true (Some out))
     /\ Main2.DataProcessor.process_data (Main2.DataProcessor.new [4; 3]%Z)
        = (inr tt,
           Main2.DataProcessor.mk [4; 3]%Z (Main2.mkProcessedData out true))
     /\ fst (Main.DataProcessor.get_results (Main.DataProcessor.new [4; 3]%Z))
        = inr (Some out)
     /\ fst (Main2.DataProcessor.get_results
               (Main2.DataProcessor.new [4; 3]%Z))
        = inr out
     /\ List.length out = List.length [4; 3]%Z
     /\ forall (i : nat) (d : Z),
          nth_error [4; 3]%Z i = Some d ->
          nth_error out i
          = Some (Spec.adjustRange (Spec.selectTransform d)))
  /\ (forall rs : list B64.num,
        B64.Main2.process [4; 3]%Z = inr rs ->
        B64.Main.process [4; 3]%Z = inr rs
        /\ List.length rs = List.length [4; 3]%Z
        /\ forall (i : nat) (d : Z),
             nth_error [4; 3]%Z i = Some d ->
             exists v : B64.num,
               nth_error rs i = Some v
               /\ B64.Main.process_item d = inr v
               /\ B64.rbind
                    (if (d mod 2 =? 0)%Z
                     then inr (B64.Main2.transform_even_number d)
                     else B64.Main2.transform_odd_number d)
                    B64.Main2.adjust_value_range
                  = inr v).
Proof.
  apply (process_data_elementwise [4; 3]%Z).
  - discriminate.
  - repeat constructor; apply Z.leb_le; reflexivity.
Defined.

(** C1 does not hold for every non-empty list: 10^155 is even and its
    square divided by 10 is beyond the largest binary64 number, 10^309 + 1
    is odd and has no binary64 value to take the root of; on the lists that
    hold one of them [process_data] of both modules raises [OverflowError]
    and produces no list. *)
Lemma process_data_overflow_counterexample :
  [10 ^ 155]%Z <> []
  /\ B64.Main.process [10 ^ 155]%Z
     = inl (B64.OverflowError
              "integer division result too large for a float")
  /\ B64.Main2.process [10 ^ 155]%Z
     = inl (B64.OverflowError
              "integer division result too large for a float")
  /\ B64.Main.process [10 ^ 309 + 1]%Z
     = inl (B64.OverflowError "int too large to convert to float")
  /\ B64.Main2.process [10 ^ 309 + 1]%Z
     = inl (B64.OverflowError "int too large to convert to float").
Proof.
  split; [discriminate|]. repeat apply conj; vm_compute; reflexivity.
Qed.

(** C2: on processors constructed from the same list, every sequence of
    calls of the public methods of the processor, the analyzer and the report
    generator returns the same values and raises the same errors in main.py
    and in main2.py; in particular the processed values, the statistics, the
    outliers for every threshold, the groups and the report text are equal. *)
Theorem modules_observationally_equivalent (fmt : R -> string) (D : list Z) :
  let p1 := Main.DataProcessor.new D in
  let p2 := Main2.DataProcessor.new D in
  (forall calls : list call,
     trace (main_call fmt) calls p1 = trace (main2_call fmt) calls p2)
  /\ fst (Main.DataProcessor.get_results p1)
     = rbind (fst (Main2.DataProcessor.get_results p2)) (fun l => ok (Some l))
  /\ fst (Main.DataProcessor.calculate_stats p1)
     = fst (Main2.DataProcessor.calculate_stats p2)
  /\ (forall t : R,
        fst (Main.DataAnalyzer.find_outliers t p1)
        = fst (Main2.DataAnalyzer.find_outliers t p2))
  /\ fst (Main.DataAnalyzer.group_values p1)
     = fst (Main2.DataAnalyzer.group_values_by_ranges p2)
  /\ fst (Main.ReportGenerator.generate_text_report fmt p1)
     = fst (Main2.ReportGenerator.generate_text_report fmt p2).
Proof.
  intros p1 p2. split.
  { intros calls. apply sim_trace, sim_new. }
  subst p1 p2. unfold Main.DataProcessor.new, Main2.DataProcessor.new.
  destruct D as [|d D].
  { repeat split; intros; reflexivity. }
  assert (HD : d :: D <> []) by discriminate.
  repeat split; intros.
  - now rewrite get_results_lazy_main, get_results_lazy_main2.
  - now rewrite calculate_stats_lazy_main, calculate_stats_lazy_main2,
      calculate_stats_done_main, calculate_stats_done_main2.
  - now rewrite find_outliers_lazy_main, find_outliers_lazy_main2,
      find_outliers_done_main, find_outliers_done_main2.
  - now rewrite group_values_lazy_main, group_values_lazy_main2,
      group_values_done_main, group_values_done_main2.
  - now rewrite generate_text_report_lazy_main,
      generate_text_report_lazy_main2, generate_text_report_done_main,
      generate_text_report_done_main2.
Qed.

(** C3: on a processor constructed from an empty dataset, [process_data]
    raises the [ValueError] for empty data, which is a [DomainError];
    [get_results] and [calculate_stats] start the processing and end with
    that same error, and so do the analyzer and the report, which read the
    processor.  The object is left unprocessed, so this holds at every later
    call as well. *)
Theorem empty_data_fails :
  let e := ValueError "Данные не могут быть пустыми" in
  let p1 := Main.DataProcessor.new [] in
  let p2 := Main2.DataProcessor.new [] in
  Spec.DomainError e = true
  /\ Main.DataProcessor.process_data p1 = (inl e, p1)
  /\ Main.DataProcessor.get_results p1 = (inl e, p1)
  /\ Main.DataProcessor.calculate_stats p1 = (inl e, p1)
  /\ (forall t, Main.DataAnalyzer.find_outliers t p1 = (inl e, p1))
  /\ Main.DataAnalyzer.group_values p1 = (inl e, p1)
  /\ (forall fmt, Main.ReportGenerator.generate_text_report fmt p1 = (inl e, p1))
  /\ Main2.DataProcessor.process_data p2 = (inl e, p2)
  /\ Main2.DataProcessor.get_results p2 = (inl e, p2)
  /\ Main2.DataProcessor.calculate_stats p2 = (inl e, p2)
  /\ (forall t, Main2.DataAnalyzer.find_outliers t p2 = (inl e, p2))
  /\ Main2.DataAnalyzer.group_values_by_ranges p2 = (inl e, p2)
  /\ (forall fmt,
        Main2.ReportGenerator.generate_text_report fmt p2 = (inl e, p2)).
Proof.
  cbv zeta. repeat split; intros; reflexivity.
Qed.




(** C5: on a processed object, [group_values] of main.py and
    [group_values_by_ranges] of main2.py return the same three buckets: the
    processed values below 10, those from 10 to 50 and those above 50.  Every
    bucket keeps the order of the processed list, no value is in two buckets,
    and the three lengths add up to the length of the processed list.  On a
    new object the call first processes the data and, when that returns a
    list, does the same with it. *)
Theorem group_values_partition (D : list Z) (rs : list R) :
  let p1 := Main.DataProcessor.mk D true (Some rs) in
  let p2 := Main2.DataProcessor.mk D (Main2.mkProcessedData rs true) in
  exists g : Groups,
    Main.DataAnalyzer.group_values p1 = (inr g, p1)
    /\ Main2.DataAnalyzer.group_values_by_ranges p2 = (inr g, p2)
    /\ (forall v, In v (low g) <-> In v rs /\ v < 10)
    /\ (forall v, In v (medium g) <-> In v rs /\ 10 <= v <= 50)
    /\ (forall v, In v (high g) <-> In v rs /\ v > 50)
    /\ (forall v, ~ (In v (low g) /\ In v (medium g)))
    /\ (forall v, ~ (In v (low g) /\ In v (high g)))
    /\ (forall v, ~ (In v (medium g) /\ In v (high g)))
    /\ subseq (low g) rs
    /\ subseq (medium g) rs
    /\ subseq (high g) rs
    /\ (List.length (low g) + List.length (medium g) + List.length (high g)
        = List.length rs)%nat
    /\ (forall out : list R,
          fst (Main.DataProcessor.get_results (Main.DataProcessor.new D))
          = inr (Some out) ->
          Main.DataAnalyzer.group_values (Main.DataProcessor.new D)
          = Main.DataAnalyzer.group_values
              (Main.DataProcessor.mk D true (Some out))
          /\ Main2.DataAnalyzer.group_values_by_ranges
               (Main2.DataProcessor.new D)
             = Main2.DataAnalyzer.group_values_by_ranges
                 (Main2.DataProcessor.mk D (Main2.mkProcessedData out true))).
Proof.
  intros p1 p2. subst p1 p2. exists (groups_of rs).
  assert (Hlow : forall v, In v (low (groups_of rs)) <-> In v rs /\ v < 10).
  { intros v. cbn [groups_of low]. now rewrite filter_In, Rltb_true. }
  assert (Hmed : forall v,
             In v (medium (groups_of rs)) <-> In v rs /\ 10 <= v <= 50).
  { intros v. cbn [groups_of medium].
    now rewrite filter_In, Bool.andb_true_iff, !Rleb_true. }
  assert (Hhigh : forall v, In v (high (groups_of rs)) <-> In v rs /\ v > 50).
  { intros v. cbn [groups_of high]. now rewrite filter_In, Rgtb_true. }
  repeat apply conj; try assumption;
    try (intros v; rewrite ?Hlow, ?Hmed, ?Hhigh; lra);
    try apply filter_subseq.
  - apply group_values_done_main.
  - reflexivity.
  - apply groups_of_length.
  - intros out Hout. destruct D as [|d D]; [discriminate Hout|].
    assert (HD : d :: D <> []) by discriminate.
    unfold Main.DataProcessor.new, Main2.DataProcessor.new in *.
    rewrite get_results_lazy_main in Hout by exact HD.
    injection Hout as <-.
    split; [now apply group_values_lazy_main
           | now apply group_values_lazy_main2].
Qed.

(** C6: [adjust_value_range] is one rescaling step: a value above 100 is
    divided by 10, a value below 1 is multiplied by 10, any other value is
    returned unchanged.  5000 becomes 500, which stays outside [1, 100]; the
    loop of main.py does the same inline (100 is squared to 10000 and stored
    as 1000). *)
Theorem adjust_value_range_single_step (v : R) :
  (v > 100 -> Main2.DataTransformer.adjust_value_range v = v / 10)
  /\ (v < 1 -> Main2.DataTransformer.adjust_value_range v = v * 10)
  /\ (1 <= v <= 100 -> Main2.DataTransformer.adjust_value_range v = v)
  /\ Main2.DataTransformer.adjust_value_range 5000 = 500
  /\ ~ (1 <= Main2.DataTransformer.adjust_value_range 5000 <= 100)
  /\ Main.DataProcessor.process_item 100 = ok 1000
  /\ Main2.DataProcessor.process_item 100 = ok 1000.
Proof.
  assert (H5000 : Main2.DataTransformer.adjust_value_range 5000 = 500).
  { unfold Main2.DataTransformer.adjust_value_range. rcases; lra. }
  assert (H100 : Main2.DataProcessor.process_item 100 = ok 1000).
  { unfold Main2.DataProcessor.process_item. simpl.
    unfold Main2.DataTransformer.transform_even_number,
      Main2.DataTransformer.adjust_value_range. simpl.
    rcases; try lra; f_equal; lra. }
  repeat apply conj.
  - intros Hv. unfold Main2.DataTransformer.adjust_value_range. rcases; lra.
  - intros Hv. unfold Main2.DataTransformer.adjust_value_range. rcases; lra.
  - intros Hv. unfold Main2.DataTransformer.adjust_value_range. rcases; lra.
  - exact H5000.
  - rewrite H5000. lra.
  - rewrite process_item_main, <- process_item_main2. exact H100.
  - exact H100.
Qed.




(** C8: called on the empty list, [calculate_mean] and
    [calculate_basic_stats] raise [ZeroDivisionError], the division by zero
    that the specification counts as a [DomainError]; [calculate_basic_stats]
    fails at its first entry, the mean. *)
Theorem statistics_of_empty_list_fail :
  Main2.DataStatisticsCalculator.calculate_mean [] = inl ZeroDivisionError
  /\ Main2.DataStatisticsCalculator.calculate_basic_stats []
     = inl ZeroDivisionError
  /\ Spec.fails_with_DomainError
       (Main2.DataStatisticsCalculator.calculate_mean [])
  /\ Spec.fails_with_DomainError
       (Main2.DataStatisticsCalculator.calculate_basic_stats []).
Proof.
  assert (Hm : Main2.DataStatisticsCalculator.calculate_mean []
               = inl ZeroDivisionError).
  { unfold Main2.DataStatisticsCalculator.calculate_mean.
    rewrite (@len_nil R). apply truediv_zero. }
  assert (Hs : Main2.DataStatisticsCalculator.calculate_basic_stats []
               = inl ZeroDivisionError).
  { unfold Main2.DataStatisticsCalculator.calculate_basic_stats.
    now rewrite Hm. }
  repeat apply conj; try assumption.
  - exists ZeroDivisionError. now rewrite Hm.
  - exists ZeroDivisionError. now rewrite Hs.
Qed.

(** ** The standalone formula *)

Lemma compute_base_pos (r : R) : 0 < Spec.compute_base r.
Proof.
  unfold Spec.compute_base. destruct (Rgt_dec r 0); [lra|].
  pose proof (Rabs_pos r). lra.
Qed.

Lemma log_base_spec (r : R) :
  (if Rgtb r 0 then r else Rabs r + 1) = Spec.compute_base r.
Proof.
  unfold Spec.compute_base.
  destruct (Rgtb r 0) eqn:E; rprop; destruct (Rgt_dec r 0); lra.
Qed.

Lemma perform_complex_calculation_zero (x y : Z) :
  Main2.MathOperations.perform_complex_calculation x y (Some 0%Z)
  = inl (ValueError "Делитель не может быть нулем").
Proof. reflexivity. Qed.

Lemma complex_operation_zero (x y : Z) :
  Main.complex_operation x y (Some 0%Z)
  = inl (ValueError "z не может быть нулем").
Proof. reflexivity. Qed.

Lemma divisor_ok (x y : Z) (z : option Z) (msg : string) :
  z <> Some 0%Z ->
  match z with
  | Some d =>
      if (d =? 0)%Z then throw (ValueError msg)
      else truediv (IZR (x * y)) (IZR d)
  | None => ok (IZR (x * y))
  end
  = ok (match z with
        | Some d => IZR (x * y) / IZR d
        | None => IZR (x * y)
        end).
Proof.
  intros Hz. destruct z as [d|]; [|reflexivity].
  assert (Hd : d <> 0%Z) by congruence.
  rewrite (proj2 (Z.eqb_neq d 0) Hd).
  apply truediv_ok. now apply not_0_IZR.
Qed.

Lemma perform_complex_calculation_ok (x y : Z) (z : option Z) :
  z <> Some 0%Z ->
  Main2.MathOperations.perform_complex_calculation x y z
  = ok (Spec.compute x y z).
Proof.
  intros Hz. unfold Main2.MathOperations.perform_complex_calculation.
  cbv zeta. rewrite (divisor_ok x y z _ Hz). cbn [rbind ok].
  rewrite log_base_spec, math_log_ok by apply compute_base_pos.
  reflexivity.
Qed.

Lemma complex_operation_ok (x y : Z) (z : option Z) :
  z <> Some 0%Z ->
  Main.complex_operation x y z = ok (Spec.compute x y z).
Proof.
  intros Hz. unfold Main.complex_operation.
  cbv zeta. rewrite (divisor_ok x y z _ Hz). cbn [rbind ok].
  set (r := match z with
            | Some d => IZR (x * y) / IZR d
            | None => IZR (x * y)
            end).
  replace (if Rgtb r 0 then math_log r else math_log (Rabs r + 1))
    with (math_log (if Rgtb r 0 then r else Rabs r + 1))
    by (destruct (Rgtb r 0); reflexivity).
  rewrite log_base_spec, math_log_ok by apply compute_base_pos.
  reflexivity.
Qed.

(** C9: for factors [x] and [y] and a divisor [z] of absolute value at most
    10^100, [perform_complex_calculation] of main2.py and [complex_operation]
    of main.py fail exactly when the divisor is given and is 0, and then
    with a [ValueError], a [DomainError]; otherwise they return
    [ln base * pi] for [r = x * y], divided by [z] when it is given, and
    [base = r] when [r > 0], [|r| + 1] otherwise.  For 5, 10 and no divisor
    the result is [ln 50 * pi].  The bound keeps the quotient inside the
    range of binary64, where it neither overflows nor rounds to zero. *)
Theorem complex_calculation_result (x y : Z) (z : option Z)
  (Hx : (Z.abs x <= 10 ^ 100)%Z) (Hy : (Z.abs y <= 10 ^ 100)%Z)
  (Hdiv : forall d, z = Some d -> (Z.abs d <= 10 ^ 100)%Z) :
  (Spec.fails_with_DomainError
     (Main2.MathOperations.perform_complex_calculation x y z)
   <-> z = Some 0%Z)
  /\ (Spec.fails_with_DomainError (Main.complex_operation x y z)
      <-> z = Some 0%Z)
  /\ ((exists e,
         Main2.MathOperations.perform_complex_calculation x y z = inl e)
      <-> z = Some 0%Z)
  /\ ((exists e, Main.complex_operation x y z = inl e) <-> z = Some 0%Z)
  /\ (z <> Some 0%Z ->
      Main2.MathOperations.perform_complex_calculation x y z
      = ok (Spec.compute x y z)
      /\ Main.complex_operation x y z = ok (Spec.compute x y z))
  /\ Main2.MathOperations.perform_complex_calculation 5 10 None
     = ok (ln 50 * PI)
  /\ Main.complex_operation 5 10 None = ok (ln 50 * PI).
Proof.
  assert (Hdec : z = Some 0%Z \/ z <> Some 0%Z).
  { destruct z as [d|]; [|right; discriminate].
    destruct (Z.eq_dec d 0) as [->|Hd]; [now left | right; congruence]. }
  assert (H50 : Spec.compute 5 10 None = ln 50 * PI).
  { unfold Spec.compute, Spec.compute_base. cbv zeta.
    change (5 * 10)%Z with 50%Z. destruct (Rgt_dec 50 0); [reflexivity | lra]. }
  split; [|split; [|split; [|split; [|split; [|split]]]]].
  - split.
    + intros (e & He & _). destruct Hdec as [Hz|Hz]; [exact Hz|].
      rewrite (perform_complex_calculation_ok x y z Hz) in He. discriminate.
    + intros ->. eexists. split; [apply perform_complex_calculation_zero|].
      reflexivity.
  - split.
    + intros (e & He & _). destruct Hdec as [Hz|Hz]; [exact Hz|].
      rewrite (complex_operation_ok x y z Hz) in He. discriminate.
    + intros ->. eexists. split; [apply complex_operation_zero|].
      reflexivity.
  - split.
    + intros (e & He). destruct Hdec as [Hz|Hz]; [exact Hz|].
      rewrite (perform_complex_calculation_ok x y z Hz) in He. discriminate.
    + intros ->. eexists. apply perform_complex_calculation_zero.
  - split.
    + intros (e & He). destruct Hdec as [Hz|Hz]; [exact Hz|].
      rewrite (complex_operation_ok x y z Hz) in He. discriminate.
    + intros ->. eexists. apply complex_operation_zero.
  - intros Hz. split.
    + now apply perform_complex_calculation_ok.
    + now apply complex_operation_ok.
  - rewrite perform_complex_calculation_ok by discriminate. now rewrite H50.
  - rewrite complex_operation_ok by discriminate. now rewrite H50.
Qed.

Lemma complex_calculation_result_witness :
  (Spec.fails_with_DomainError
     (Main2.MathOperations.perform_complex_calculation 5 10 (Some 2%Z))
   <-> Some 2%Z = Some 0%Z)
  /\ (Spec.fails_with_DomainError (Main.complex_operation 5 10 (Some 2%Z))
      <-> Some 2%Z = Some 0%Z)
  /\ ((exists e,
         Main2.MathOperations.perform_complex_calculation 5 10 (Some 2%Z)
         = inl e)
      <-> Some 2%Z = Some 0%Z)
  /\ ((exists e, Main.complex_operation 5 10 (Some 2%Z) = inl e)
      <-> Some 2%Z = Some 0%Z)
  /\ (Some 2%Z <> Some 0%Z ->
      Main2.MathOperations.perform_complex_calculation 5 10 (Some 2%Z)
      = ok (Spec.compute 5 10 (Some 2%Z))
      /\ Main.complex_operation 5 10 (Some 2%Z)
         = ok (Spec.compute 5 10 (Some 2%Z)))
  /\ Main2.MathOperations.perform_complex_calculation 5 10 None
     = ok (ln 50 * PI)
  /\ Main.complex_operation 5 10 None = ok (ln 50 * PI).
Proof.
  apply (complex_calculation_result 5 10 (Some 2%Z)).
  - apply Z.leb_le. reflexivity.
  - apply Z.leb_le. reflexivity.
  - intros d H. injection H as <-. apply Z.leb_le. reflexivity.
Defined.

(** C9 does not hold for all integers: with the factors 10^200 and the
    divisor 1 the quotient 10^400 has no binary64 value and both functions
    raise [OverflowError], though the divisor is not 0; with the factors 1
    and the divisor 10^400 the quotient rounds to 0.0, which is not above 0,
    and the logarithm is taken of [|0.0| + 1 = 1.0] and not of the
    quotient.  This holds whatever the library logarithm returns. *)
Lemma complex_calculation_overflow_counterexample :
  Some 1%Z <> Some 0%Z
  /\ (forall libm_log,
        B64.Main2.perform_complex_calculation libm_log
          (10 ^ 200) (10 ^ 200) (Some 1%Z)
        = inl (B64.OverflowError
                 "integer division result too large for a float"))
  /\ (forall libm_log,
        B64.Main.complex_operation libm_log (10 ^ 200) (10 ^ 200) (Some 1%Z)
        = inl (B64.OverflowError
                 "integer division result too large for a float"))
  /\ B64.truediv (B64.Int (1 * 1)) (B64.Int (10 ^ 400))
     = inr (S754_zero false)
  /\ (forall libm_log,
        B64.Main2.perform_complex_calculation libm_log 1 1
          (Some (10 ^ 400)%Z)
        = inr (SFmul B64.prec B64.emax
                 (libm_log (B64.Float
                              (S754_finite false 4503599627370496 (-52))))
                 B64.math_pi))
  /\ (forall libm_log,
        B64.Main.complex_operation libm_log 1 1 (Some (10 ^ 400)%Z)
        = inr (SFmul B64.prec B64.emax
                 (libm_log (B64.Float
                              (S754_finite false 4503599627370496 (-52))))
                 B64.math_pi)).
Proof.
  split; [discriminate|].
  repeat apply conj; intros; vm_compute; reflexivity.
Qed.

(** ** Signs *)

Lemma selectTransform_nonneg (n : Z) : 0 <= Spec.selectTransform n.
Proof.
  unfold Spec.selectTransform. destruct (Z.even n).
  - apply pow2_ge_0.
  - apply sqrt_pos.
Qed.

Lemma adjustRange_nonneg (v : R) : 0 <= v -> 0 <= Spec.adjustRange v.
Proof.
  intros Hv. unfold Spec.adjustRange.
  destruct (Rgt_dec v 100); [lra|]. destruct (Rlt_dec v 1); lra.
Qed.

Lemma processed_nonneg (D : list Z) (v : R) : In v (processed D) -> 0 <= v.
Proof.
  unfold processed. rewrite in_map_iff. intros (d & <- & _).
  apply adjustRange_nonneg, selectTransform_nonneg.
Qed.

(** C10: non-negative processed values in binary64 arithmetic.  The square
    of an even number is at least 0; the square root that
    [transform_odd_number] returns is at least 0; [adjust_value_range]
    returns a value that is at least 0 for one that is.  Hence every value of
    a list that [process_data] returns is at least 0, in both modules; the
    [min] of statistics computed from it is at least 0; and every value of
    its [low] group is at least 0 and below 10. *)
Theorem processed_values_nonnegative (D : list Z) (rs : list B64.num)
  (Hrs : B64.Main2.process D = inr rs) :
  (forall n, B64.nonneg (B64.Main2.transform_even_number n) = true)
  /\ (forall n r,
        B64.Main2.transform_odd_number n = inr r -> B64.nonneg r = true)
  /\ (forall v r,
        B64.nonneg v = true ->
        B64.Main2.adjust_value_range v = inr r ->
        B64.nonneg r = true)
  /\ B64.Main.process D = inr rs
  /\ (forall v, In v rs -> B64.nonneg v = true)
  /\ (forall s,
        B64.Main2.calculate_basic_stats rs = inr s ->
        B64.Main.calculate_stats rs = inr s
        /\ In (B64.min_ s) rs
        /\ B64.nonneg (B64.min_ s) = true)
  /\ (forall v,
        In v (B64.low (B64.Main.group_values rs)) ->
        B64.nonneg v = true /\ B64.ltb v (B64.Int 10) = true)
  /\ (forall v,
        In v (B64.low (B64.Main2.group_values_by_ranges rs)) ->
        B64.nonneg v = true /\ B64.ltb v (B64.Int 10) = true).
Proof.
  pose proof (b64_processed_nonneg D rs Hrs) as Hnn.
  assert (Hlow : forall v,
             In v (B64.low (B64.Main2.group_values_by_ranges rs)) ->
             B64.nonneg v = true /\ B64.ltb v (B64.Int 10) = true).
  { intros v Hv. cbn [B64.Main2.group_values_by_ranges B64.low] in Hv.
    apply filter_In in Hv. destruct Hv as [Hin Hlt].
    split; [now apply Hnn | exact Hlt]. }
  split; [apply b64_transform_even_number_nonneg|].
  split; [apply b64_transform_odd_number_nonneg|].
  split; [apply b64_adjust_value_range_nonneg|].
  split; [now rewrite b64_process_eq|].
  split; [exact Hnn|]. split; [|split].
  - intros s Hs. destruct (b64_stats_min_max rs s Hs) as (_ & _ & Hmin & _).
    apply b64_min_In in Hmin.
    split; [now rewrite b64_stats_eq|]. split; [exact Hmin|].
    now apply Hnn.
  - intros v Hv. rewrite b64_group_values_low in Hv. now apply Hlow.
  - exact Hlow.
Qed.

Lemma processed_values_nonnegative_witness :
  (forall n, B64.nonneg (B64.Main2.transform_even_number n) = true)
  /\ (forall n r,
        B64.Main2.transform_odd_number n = inr r -> B64.nonneg r = true)
  /\ (forall v r,
        B64.nonneg v = true ->
        B64.Main2.adjust_value_range v = inr r ->
        B64.nonneg r = true)
  /\ B64.Main.process [-3; 0]%Z = inr b64_processed_m3_0
  /\ (forall v, In v b64_processed_m3_0 -> B64.nonneg v = true)
  /\ (forall s,
        B64.Main2.calculate_basic_stats b64_processed_m3_0 = inr s ->
        B64.Main.calculate_stats b64_processed_m3_0 = inr s
        /\ In (B64.min_ s) b64_processed_m3_0
        /\ B64.nonneg (B64.min_ s) = true)
  /\ (forall v,
        In v (B64.low (B64.Main.group_values b64_processed_m3_0)) ->
        B64.nonneg v = true /\ B64.ltb v (B64.Int 10) = true)
  /\ (forall v,
        In v (B64.low (B64.Main2.group_values_by_ranges
                         b64_processed_m3_0)) ->
        B64.nonneg v = true /\ B64.ltb v (B64.Int 10) = true).
Proof.
  apply (processed_values_nonnegative [-3; 0]%Z b64_processed_m3_0).
  vm_compute. reflexivity.
Defined.

(** The statistics of the dataset [-3; 0] are computed: the [min] is the
    integer 0 and the [low] group holds both processed values. *)
Lemma statistics_of_m3_0 :
  B64.Main2.calculate_basic_stats b64_processed_m3_0
  = inr (B64.mkStats (S754_finite false 7800463371553962 (-53))
           (B64.Float f_sqrt_3) (B64.Int 0)
           (S754_finite false 7800463371553962 (-53)))
  /\ B64.low (B64.Main.group_values b64_processed_m3_0) = b64_processed_m3_0.
Proof. split; vm_compute; reflexivity. Qed.

(** ** The Fibonacci generator *)

Lemma fib_pair_snd (n : nat) : snd (fib_pair n) = fib (S n).
Proof.
  unfold fib. cbn [fib_pair]. destruct (fib_pair n) as [a b]. reflexivity.
Qed.

Lemma fib_step (n : nat) : fib (S (S n)) = (fib (S n) + fib n)%Z.
Proof.
  rewrite <- (fib_pair_snd (S n)), <- (fib_pair_snd n).
  unfold fib. cbn [fib_pair]. destruct (fib_pair n) as [a b]. cbn. lia.
Qed.

Lemma fib_list_length (n : nat) : List.length (fib_list n) = n.
Proof. unfold fib_list. now rewrite length_map, length_seq. Qed.

Lemma fib_list_S (n : nat) : fib_list (S n) = fib_list n ++ [fib n].
Proof. unfold fib_list. now rewrite seq_S, map_app. Qed.

Lemma fib_list_nth (n i : nat) :
  (i < n)%nat -> nth_error (fib_list n) i = Some (fib i).
Proof.
  intros Hi. unfold fib_list.
  rewrite nth_error_map, nth_error_seq.
  destruct (Nat.ltb_spec i n); [reflexivity | lia].
Qed.

Lemma getitem_neg_fib_list (n k : nat) :
  (1 <= k <= n)%nat -> getitem_neg (fib_list n) k = Some (fib (n - k)).
Proof.
  intros Hk. unfold getitem_neg. rewrite fib_list_length.
  destruct (Nat.ltb_spec n k); [lia|]. apply fib_list_nth. lia.
Qed.

Lemma fibonacci_loop_main (length : Z) (m n : nat) :
  (2 <= n)%nat ->
  (Z.to_nat length - n <= m)%nat ->
  Main.DataGenerator.fibonacci_loop length (fib_list n)
  = Some (fib_list (Nat.max n (Z.to_nat length))).
Proof.
  revert n. induction m as [|m IH]; intros n Hn Hm;
    pose proof (fib_list_length n) as Hlen;
    rewrite Main.DataGenerator.fibonacci_loop_equation_1;
    destruct (Z_lt_dec (Z.of_nat (List.length (fib_list n))) length)
      as [Hlt|Hge];
    cbn.
  - lia.
  - now replace (Nat.max n (Z.to_nat length)) with n by lia.
  - rewrite (getitem_neg_fib_list n 1) by lia.
    unfold Main.DataGenerator.fibonacci_loop_unfold_clause_1_clause_1.
    rewrite (getitem_neg_fib_list n 2) by lia.
    unfold Main.DataGenerator.fibonacci_loop_unfold_clause_1_clause_1_clause_1.
    replace (fib (n - 1) + fib (n - 2))%Z with (fib n).
    2:{ replace n with (S (S (n - 2))) at 1 by lia. rewrite fib_step.
        now replace (S (n - 2)) with (n - 1)%nat by lia. }
    rewrite <- fib_list_S. rewrite IH by lia.
    f_equal. f_equal. lia.
  - now replace (Nat.max n (Z.to_nat length)) with n by lia.
Qed.

Lemma fibonacci_loop_main2 (length : Z) (m n : nat) :
  (2 <= n)%nat ->
  (Z.to_nat length - n <= m)%nat ->
  Main2.DataGenerator.fibonacci_loop length (fib_list n)
  = Some (fib_list (Nat.max n (Z.to_nat length))).
Proof.
  revert n. induction m as [|m IH]; intros n Hn Hm;
    pose proof (fib_list_length n) as Hlen;
    rewrite Main2.DataGenerator.fibonacci_loop_equation_1;
    destruct (Z_lt_dec (Z.of_nat (List.length (fib_list n))) length)
      as [Hlt|Hge];
    cbn.
  - lia.
  - now replace (Nat.max n (Z.to_nat length)) with n by lia.
  - rewrite (getitem_neg_fib_list n 1) by lia.
    unfold Main2.DataGenerator.fibonacci_loop_unfold_clause_1_clause_1.
    rewrite (getitem_neg_fib_list n 2) by lia.
    unfold Main2.DataGenerator.fibonacci_loop_unfold_clause_1_clause_1_clause_1.
    replace (fib (n - 1) + fib (n - 2))%Z with (fib n).
    2:{ replace n with (S (S (n - 2))) at 1 by lia. rewrite fib_step.
        now replace (S (n - 2)) with (n - 1)%nat by lia. }
    rewrite <- fib_list_S. rewrite IH by lia.
    f_equal. f_equal. lia.
  - now replace (Nat.max n (Z.to_nat length)) with n by lia.
Qed.

Lemma slice_to_all {A} (l : list A) (stop : Z) :
  (0 <= stop)%Z -> List.length l = Z.to_nat stop -> slice_to l stop = l.
Proof.
  intros Hs Hl. unfold slice_to.
  destruct (Z.leb_spec 0 stop); [|lia]. rewrite <- Hl. apply firstn_all.
Qed.

(** What the generator returns, for every [length]. *)
Lemma generate_fibonacci_sequence_main (length : Z) :
  Main.DataGenerator.generate_fibonacci_sequence length
  = Some (fib_list (Z.to_nat length)).
Proof.
  unfold Main.DataGenerator.generate_fibonacci_sequence.
  destruct (Z.leb_spec length 0) as [H0|H0].
  { now replace (Z.to_nat length) with 0%nat by lia. }
  destruct (Z.eqb_spec length 1) as [->|H1]; [reflexivity|].
  change [0%Z; 1%Z] with (fib_list 2).
  rewrite (fibonacci_loop_main length (Z.to_nat length) 2) by lia.
  replace (Nat.max 2 (Z.to_nat length)) with (Z.to_nat length) by lia.
  rewrite slice_to_all; [reflexivity | lia | apply fib_list_length].
Qed.

Lemma generate_fibonacci_sequence_main2 (length : Z) :
  Main2.DataGenerator.generate_fibonacci_sequence length
  = Some (fib_list (Z.to_nat length)).
Proof.
  unfold Main2.DataGenerator.generate_fibonacci_sequence.
  destruct (Z.leb_spec length 0) as [H0|H0].
  { now replace (Z.to_nat length) with 0%nat by lia. }
  destruct (Z.eqb_spec length 1) as [->|H1]; [reflexivity|].
  change [0%Z; 1%Z] with (fib_list 2).
  rewrite (fibonacci_loop_main2 length (Z.to_nat length) 2) by lia.
  replace (Nat.max 2 (Z.to_nat length)) with (Z.to_nat length) by lia.
  rewrite slice_to_all; [reflexivity | lia | apply fib_list_length].
Qed.

Example generate_fibonacci_sequence_5 :
  Main.DataGenerator.generate_fibonacci_sequence 5
  = Some [0; 1; 1; 2; 3]%Z
  /\ Main2.DataGenerator.generate_fibonacci_sequence 5
     = Some [0; 1; 1; 2; 3]%Z.
Proof. split; reflexivity. Qed.

(** X1: [generate_fibonacci_sequence] of either module never fails on an
    index, whatever [length] is, and both modules return the same list, with
    exactly [length] numbers when [length] is positive and none otherwise. *)
Theorem generate_fibonacci_sequence_length (length : Z) :
  exists sequence : list Z,
    Main.DataGenerator.generate_fibonacci_sequence length = Some sequence
    /\ Main2.DataGenerator.generate_fibonacci_sequence length = Some sequence
    /\ Z.of_nat (List.length sequence) = Z.max 0 length.
Proof.
  exists (fib_list (Z.to_nat length)). split; [|split].
  - apply generate_fibonacci_sequence_main.
  - apply generate_fibonacci_sequence_main2.
  - rewrite fib_list_length. lia.
Qed.

(** X2: the list that [generate_fibonacci_sequence] returns starts with 0,
    then 1, and every later number is the sum of the two before it. *)
Theorem generate_fibonacci_sequence_recurrence (length : Z)
  (sequence : list Z)
  (Hrun : Main.DataGenerator.generate_fibonacci_sequence length
          = Some sequence) :
  (forall x, nth_error sequence 0 = Some x -> x = 0%Z)
  /\ (forall x, nth_error sequence 1 = Some x -> x = 1%Z)
  /\ (forall i x y z,
        nth_error sequence i = Some x ->
        nth_error sequence (S i) = Some y ->
        nth_error sequence (S (S i)) = Some z ->
        z = (y + x)%Z).
Proof.
  rewrite generate_fibonacci_sequence_main in Hrun.
  injection Hrun as <-.
  assert (Hnth : forall i x,
             nth_error (fib_list (Z.to_nat length)) i = Some x -> x = fib i).
  { intros i x Hx.
    assert (Hi : (i < Z.to_nat length)%nat).
    { rewrite <- (fib_list_length (Z.to_nat length)).
      apply nth_error_Some. congruence. }
    rewrite fib_list_nth in Hx by exact Hi. congruence. }
  split; [|split].
  - intros x Hx. now apply Hnth in Hx.
  - intros x Hx. now apply Hnth in Hx.
  - intros i x y z Hx Hy Hz.
    apply Hnth in Hx, Hy, Hz. subst. apply fib_step.
Qed.

Lemma generate_fibonacci_sequence_recurrence_witness :
  (forall x, nth_error [0; 1; 1; 2; 3]%Z 0 = Some x -> x = 0%Z)
  /\ (forall x, nth_error [0; 1; 1; 2; 3]%Z 1 = Some x -> x = 1%Z)
  /\ (forall i x y z,
        nth_error [0; 1; 1; 2; 3]%Z i = Some x ->
        nth_error [0; 1; 1; 2; 3]%Z (S i) = Some y ->
        nth_error [0; 1; 1; 2; 3]%Z (S (S i)) = Some z ->
        z = (y + x)%Z).
Proof.
  apply (generate_fibonacci_sequence_recurrence 5). reflexivity.
Defined.

Lemma firstn_seq_le (k a n : nat) :
  (k <= n)%nat -> firstn k (seq a n) = seq a k.
Proof.
  revert a n. induction k as [|k IH]; intros a n Hk; [reflexivity|].
  destruct n as [|n]; [lia|]. cbn. f_equal. apply IH. lia.
Qed.

(** X3: a shorter Fibonacci sequence is the beginning of a longer one: for
    [m <= n] the first [m] numbers of the list for [n] are the list for
    [m]. *)
Theorem generate_fibonacci_sequence_prefix (m n : Z) (Hmn : (m <= n)%Z) :
  exists short long : list Z,
    Main.DataGenerator.generate_fibonacci_sequence m = Some short
    /\ Main.DataGenerator.generate_fibonacci_sequence n = Some long
    /\ Main2.DataGenerator.generate_fibonacci_sequence m = Some short
    /\ Main2.DataGenerator.generate_fibonacci_sequence n = Some long
    /\ short = firstn (List.length short) long.
Proof.
  exists (fib_list (Z.to_nat m)), (fib_list (Z.to_nat n)).
  rewrite !generate_fibonacci_sequence_main,
    !generate_fibonacci_sequence_main2.
  repeat apply conj; try reflexivity.
  rewrite fib_list_length. unfold fib_list.
  rewrite firstn_map, firstn_seq_le by lia. reflexivity.
Qed.

Lemma generate_fibonacci_sequence_prefix_witness :
  exists short long : list Z,
    Main.DataGenerator.generate_fibonacci_sequence 2 = Some short
    /\ Main.DataGenerator.generate_fibonacci_sequence 5 = Some long
    /\ Main2.DataGenerator.generate_fibonacci_sequence 2 = Some short
    /\ Main2.DataGenerator.generate_fibonacci_sequence 5 = Some long
    /\ short = firstn (List.length short) long.
Proof.
  apply (generate_fibonacci_sequence_prefix 2 5). lia.
Defined.

(** ** Random data *)

Lemma random_loop_main2 (rng : Type) (randint : Z -> Z -> M rng Z)
  (n : nat) (lo hi : Z) (g g' : rng) (l : list Z) :
  (forall a b s v s', randint a b s = (inr v, s') -> (a <= v <= b)%Z) ->
  Main2.DataGenerator.random_loop rng randint n lo hi g = (inr l, g') ->
  List.length l = n /\ Forall (fun v => (lo <= v <= hi)%Z) l.
Proof.
  intros Hrange. revert g g' l. induction n as [|n IH]; intros g g' l Hrun.
  - cbn in Hrun. injection Hrun as <- _. split; [reflexivity | constructor].
  - cbn [Main2.DataGenerator.random_loop] in Hrun. unfold bind in Hrun.
    destruct (randint lo hi g) as [[e|v] g1] eqn:Ev; [discriminate|].
    destruct (Main2.DataGenerator.random_loop rng randint n lo hi g1)
      as [[e|rest] g2] eqn:Er; [discriminate|].
    cbn in Hrun. injection Hrun as <- _.
    destruct (IH _ _ _ Er) as [Hlen Hall]. split.
    + cbn. now rewrite Hlen.
    + constructor; [eapply Hrange, Ev | exact Hall].
Qed.

Lemma random_loop_main (rng : Type) (randint : Z -> Z -> M rng Z) (n : nat) :
  Main.DataGenerator.random_loop rng randint n
  = Main2.DataGenerator.random_loop rng randint n (-50) 50.
Proof.
  induction n as [|n IH]; [reflexivity|].
  cbn [Main.DataGenerator.random_loop Main2.DataGenerator.random_loop].
  now rewrite IH.
Qed.

(** X4: with a generator whose [randint] keeps to its bounds, a list that
    [generate_random_data] returns has [size] numbers (none for a size that
    is not positive), all between [min_val] and [max_val]; the function of
    main.py is the one of main2.py for the bounds -50 and 50. *)
Theorem generate_random_data_range (rng : Type)
  (randint : Z -> Z -> M rng Z) (size min_val max_val : Z) (g g' : rng)
  (data : list Z)
  (Hrandint : forall a b s v s',
      randint a b s = (inr v, s') -> (a <= v <= b)%Z)
  (Hrun : Main2.DataGenerator.generate_random_data rng randint
            size min_val max_val g = (inr data, g')) :
  Z.of_nat (List.length data) = Z.max 0 size
  /\ Forall (fun v => (min_val <= v <= max_val)%Z) data
  /\ Main.DataGenerator.generate_random_data rng randint size
     = Main2.DataGenerator.generate_random_data rng randint size (-50) 50.
Proof.
  unfold Main2.DataGenerator.generate_random_data in Hrun.
  destruct (random_loop_main2 _ _ _ _ _ _ _ _ Hrandint Hrun) as [Hlen Hall].
  split; [|split].
  - rewrite Hlen. lia.
  - exact Hall.
  - unfold Main.DataGenerator.generate_random_data,
      Main2.DataGenerator.generate_random_data.
    apply random_loop_main.
Qed.

Lemma generate_random_data_range_witness :
  Z.of_nat (List.length [(-50)%Z; (-50)%Z]) = Z.max 0 2
  /\ Forall (fun v => (-50 <= v <= 50)%Z) [(-50)%Z; (-50)%Z]
  /\ Main.DataGenerator.generate_random_data unit lowest_randint 2
     = Main2.DataGenerator.generate_random_data unit lowest_randint 2
         (-50) 50.
Proof.
  apply (generate_random_data_range unit lowest_randint 2 (-50) 50 tt tt).
  - intros a b s v s'. unfold lowest_randint.
    destruct (Z.leb_spec a b) as [Hab|Hab]; cbn; intros Hr;
      inversion Hr; subst; lia.
  - reflexivity.
Defined.

(** ** The range of the processed values *)

Lemma selectTransform_zero_or_ge_1 (num : Z) :
  (num = 0%Z /\ Spec.selectTransform num = 0)
  \/ (num <> 0%Z /\ 1 <= Spec.selectTransform num).
Proof.
  unfold Spec.selectTransform. destruct (Z.even num) eqn:Ev.
  - destruct (Z.eq_dec num 0) as [->|Hnz].
    + left. split; [reflexivity | simpl; lra].
    + right. split; [exact Hnz|].
      assert (Hsq : (1 <= num * num)%Z) by nia.
      apply IZR_le in Hsq. rewrite mult_IZR in Hsq. simpl. lra.
  - right. assert (Hnz : num <> 0%Z) by (intros ->; discriminate).
    split; [exact Hnz|].
    rewrite <- sqrt_1 at 1. apply sqrt_le_1_alt.
    rewrite <- abs_IZR. apply (IZR_le 1). lia.
Qed.

Lemma adjustRange_ge_1 (v : R) : 1 <= v -> 1 <= Spec.adjustRange v.
Proof.
  intros Hv. unfold Spec.adjustRange.
  destruct (Rgt_dec v 100); [lra|]. destruct (Rlt_dec v 1); lra.
Qed.

Lemma transformed_main2 (num : Z) :
  (if (num mod 2 =? 0)%Z
   then ok (Main2.DataTransformer.transform_even_number num)
   else Main2.DataTransformer.transform_odd_number num)
  = ok (Spec.selectTransform num).
Proof.
  unfold Spec.selectTransform. rewrite even_test.
  destruct (Z.even num).
  - unfold Main2.DataTransformer.transform_even_number.
    now rewrite IZR_square.
  - unfold Main2.DataTransformer.transform_odd_number.
    now rewrite math_sqrt_abs.
Qed.

(** X5: for a number of absolute value at most 10^150, inside which the
    square divided by 10 and the conversion to a float stay in the range of
    binary64, the value stored is 0 when the number is 0 and at least 1
    otherwise: the square of an even number other than 0 and the root for an
    odd number are at least 1, so the multiplication by 10 of
    [adjust_value_range] is only reached with 0, which it leaves as it
    is. *)
Theorem processed_value_zero_or_at_least_one (num : Z)
  (Hsmall : (Z.abs num <= 10 ^ 150)%Z) :
  exists v : R,
    Main.DataProcessor.process_item num = ok v
    /\ Main2.DataProcessor.process_item num = ok v
    /\ (num = 0%Z -> v = 0)
    /\ (num <> 0%Z -> 1 <= v)
    /\ (forall t : R,
          (if (num mod 2 =? 0)%Z
           then ok (Main2.DataTransformer.transform_even_number num)
           else Main2.DataTransformer.transform_odd_number num)
          = ok t ->
          t < 1 ->
          t = 0 /\ Main2.DataTransformer.adjust_value_range t = t).
Proof.
  exists (Spec.adjustRange (Spec.selectTransform num)).
  split; [apply process_item_main|]. split; [apply process_item_main2|].
  assert (Hlast : forall t : R,
             (if (num mod 2 =? 0)%Z
              then ok (Main2.DataTransformer.transform_even_number num)
              else Main2.DataTransformer.transform_odd_number num)
             = ok t ->
             t < 1 ->
             t = 0 /\ Main2.DataTransformer.adjust_value_range t = t).
  { intros t Ht Hlt. rewrite transformed_main2 in Ht. injection Ht as <-.
    destruct (selectTransform_zero_or_ge_1 num) as [[Hz Hs]|[Hnz Hs]];
      [|lra].
    rewrite Hs. split; [reflexivity|].
    rewrite adjust_value_range_spec. unfold Spec.adjustRange.
    destruct (Rgt_dec 0 100); [lra|]. destruct (Rlt_dec 0 1); lra. }
  destruct (selectTransform_zero_or_ge_1 num) as [[Hz Hs]|[Hnz Hs]].
  - rewrite Hs. unfold Spec.adjustRange.
    destruct (Rgt_dec 0 100); [lra|]. destruct (Rlt_dec 0 1); [|lra].
    split; [intros; lra|]. split; [intros; congruence | exact Hlast].
  - split; [intros; congruence|].
    split; [intros; now apply adjustRange_ge_1 | exact Hlast].
Qed.

Lemma processed_value_zero_or_at_least_one_witness :
  exists v : R,
    Main.DataProcessor.process_item 3 = ok v
    /\ Main2.DataProcessor.process_item 3 = ok v
    /\ (3%Z = 0%Z -> v = 0)
    /\ (3%Z <> 0%Z -> 1 <= v)
    /\ (forall t : R,
          (if (3 mod 2 =? 0)%Z
           then ok (Main2.DataTransformer.transform_even_number 3)
           else Main2.DataTransformer.transform_odd_number 3)
          = ok t ->
          t < 1 ->
          t = 0 /\ Main2.DataTransformer.adjust_value_range t = t).
Proof.
  apply (processed_value_zero_or_at_least_one 3).
  apply Z.leb_le. reflexivity.
Defined.

Lemma processed_bound_50 (num : Z) :
  (-50 <= num <= 50)%Z ->
  0 <= Spec.adjustRange (Spec.selectTransform num) <= 250.
Proof.
  intros Hn.
  assert (H0 : 0 <= Spec.adjustRange (Spec.selectTransform num))
    by apply adjustRange_nonneg, selectTransform_nonneg.
  split; [exact H0|].
  unfold Spec.selectTransform in *. destruct (Z.even num).
  - assert (Hsq : (num * num <= 2500)%Z) by nia.
    apply IZR_le in Hsq. rewrite mult_IZR in Hsq.
    unfold Spec.adjustRange in *. simpl in *.
    destruct (Rgt_dec (IZR num * (IZR num * 1)) 100); [lra|].
    destruct (Rlt_dec (IZR num * (IZR num * 1)) 1); lra.
  - assert (Hs : sqrt (Rabs (IZR num)) <= 100).
    { replace 100 with (sqrt (100 * 100)) by (apply sqrt_square; lra).
      apply sqrt_le_1_alt. rewrite <- abs_IZR.
      assert (Ha : (Z.abs num <= 50)%Z) by lia.
      apply IZR_le in Ha. lra. }
    pose proof (sqrt_pos (Rabs (IZR num))).
    unfold Spec.adjustRange in *.
    destruct (Rgt_dec (sqrt (Rabs (IZR num))) 100); [lra|].
    destruct (Rlt_dec (sqrt (Rabs (IZR num))) 1); lra.
Qed.

(** X6: for data in the range of [generate_random_data], from -50 to 50,
    every processed value is between 0 and 250 (50 squared is 2500 and is
    divided by 10 once). *)
Theorem processed_values_of_random_range (D : list Z) (HD : D <> [])
  (Hrange : Forall (fun d => (-50 <= d <= 50)%Z) D) :
  exists rs : list R,
    fst (Main.DataProcessor.get_results (Main.DataProcessor.new D))
    = inr (Some rs)
    /\ fst (Main2.DataProcessor.get_results (Main2.DataProcessor.new D))
       = inr rs
    /\ forall v, In v rs -> 0 <= v <= 250.
Proof.
  exists (processed D).
  unfold Main.DataProcessor.new, Main2.DataProcessor.new.
  rewrite get_results_lazy_main, get_results_lazy_main2 by exact HD.
  repeat apply conj; try reflexivity.
  intros v Hv. unfold processed in Hv. apply in_map_iff in Hv.
  destruct Hv as (d & <- & Hd).
  apply processed_bound_50. rewrite Forall_forall in Hrange. now apply Hrange.
Qed.

Lemma processed_values_of_random_range_witness :
  exists rs : list R,
    fst (Main.DataProcessor.get_results
           (Main.DataProcessor.new [50; -49]%Z))
    = inr (Some rs)
    /\ fst (Main2.DataProcessor.get_results
              (Main2.DataProcessor.new [50; -49]%Z))
       = inr rs
    /\ forall v, In v rs -> 0 <= v <= 250.
Proof.
  apply (processed_values_of_random_range [50; -49]%Z).
  - discriminate.
  - repeat constructor; lia.
Defined.

(** ** Minimum and maximum of the processed values *)

(** X7: for a non-empty dataset of integers of absolute value at most
    10^70, inside which the statistics stay in the range of binary64, the
    [min] and [max] of [calculate_stats] are processed values, and every
    processed value lies between them. *)
Theorem stats_min_max_bounds (D : list Z) (HD : D <> [])
  (Hsmall : Forall (fun d => (Z.abs d <= 10 ^ 70)%Z) D) :
  exists (rs : list R) (s : Stats),
    fst (Main.DataProcessor.get_results (Main.DataProcessor.new D))
    = inr (Some rs)
    /\ fst (Main.DataProcessor.calculate_stats (Main.DataProcessor.new D))
       = inr s
    /\ fst (Main2.DataProcessor.calculate_stats (Main2.DataProcessor.new D))
       = inr s
    /\ In (min_ s) rs
    /\ In (max_ s) rs
    /\ forall v, In v rs -> min_ s <= v <= max_ s.
Proof.
  pose proof (processed_nonempty D HD) as Hrs.
  destruct (calculate_basic_stats_ok (processed D) Hrs)
    as (mx & mn & Es & [Hmx Hmax] & [Hmn Hmin]).
  exists (processed D),
    (mkStats (Spec.mean (processed D)) mx mn
       (Spec.standardDeviation (processed D))).
  unfold Main.DataProcessor.new, Main2.DataProcessor.new.
  rewrite get_results_lazy_main by exact HD.
  rewrite calculate_stats_lazy_main, calculate_stats_lazy_main2 by exact HD.
  rewrite calculate_stats_done_main, calculate_stats_done_main2, Es.
  repeat apply conj; try reflexivity; try assumption.
  intros v Hv. cbn [min_ max_]. split; [now apply Hmin | now apply Hmax].
Qed.

Lemma stats_min_max_bounds_witness :
  exists (rs : list R) (s : Stats),
    fst (Main.DataProcessor.get_results (Main.DataProcessor.new [4; 3]%Z))
    = inr (Some rs)
    /\ fst (Main.DataProcessor.calculate_stats
              (Main.DataProcessor.new [4; 3]%Z))
       = inr s
    /\ fst (Main2.DataProcessor.calculate_stats
              (Main2.DataProcessor.new [4; 3]%Z))
       = inr s
    /\ In (min_ s) rs
    /\ In (max_ s) rs
    /\ forall v, In v rs -> min_ s <= v <= max_ s.
Proof.
  apply (stats_min_max_bounds [4; 3]%Z).
  - discriminate.
  - repeat constructor; apply Z.leb_le; reflexivity.
Defined.
(** ** Outliers and the threshold *)




(** ** The groups as a rearrangement *)

Lemma groups_of_permutation (rs : list R) :
  Permutation (low (groups_of rs) ++ medium (groups_of rs)
               ++ high (groups_of rs)) rs.
Proof.
  cbn [groups_of low medium high].
  induction rs as [|v rs IH]; [constructor|]. cbn [filter].
  destruct (Rltb v 10) eqn:E1; destruct (Rleb 10 v) eqn:E2;
    destruct (Rleb v 50) eqn:E3; destruct (Rgtb v 50) eqn:E4;
    cbn [andb];
    first
      [ solve [exfalso; rprop; lra]
      | solve [cbn; constructor; exact IH]
      | solve [apply Permutation_sym, Permutation_cons_app, Permutation_sym;
               exact IH]
      | solve [rewrite app_assoc;
               apply Permutation_sym, Permutation_cons_app;
               rewrite <- app_assoc; apply Permutation_sym; exact IH] ].
Qed.

(** X10: the three groups together are a rearrangement of the processed
    values: every value is kept, with the number of times it occurs, and
    nothing is added. *)
Theorem group_values_permutation (D : list Z) (rs : list R) :
  let p1 := Main.DataProcessor.mk D true (Some rs) in
  let p2 := Main2.DataProcessor.mk D (Main2.mkProcessedData rs true) in
  exists g : Groups,
    Main.DataAnalyzer.group_values p1 = (inr g, p1)
    /\ Main2.DataAnalyzer.group_values_by_ranges p2 = (inr g, p2)
    /\ Permutation (low g ++ medium g ++ high g) rs.
Proof.
  intros p1 p2. subst p1 p2. exists (groups_of rs).
  rewrite group_values_done_main, group_values_done_main2.
  repeat apply conj; try reflexivity. apply groups_of_permutation.
Qed.

(** ** Sequences of calls on one object *)

Lemma outliers_of_ok (t : R) (l : list R) :
  l <> [] -> exists out, outliers_of t l = inr out.
Proof.
  intros Hl. destruct (calculate_basic_stats_ok l Hl) as (mx & mn & Es & _).
  unfold outliers_of. rewrite Es. eexists. reflexivity.
Qed.

Lemma report_of_ok (fmt : R -> string) (l : list R) :
  l <> [] -> exists text, report_of fmt l = inr text.
Proof.
  intros Hl. destruct (calculate_basic_stats_ok l Hl) as (mx & mn & Es & _).
  destruct (outliers_of_ok 2 l Hl) as (out & Eo).
  unfold report_of. rewrite Es. cbn [rbind ok]. rewrite Eo.
  eexists. reflexivity.
Qed.

(** On a processed object with data every call succeeds and leaves the
    object as it is. *)
Lemma main_call_processed (fmt : R -> string) (c : call) (D : list Z) :
  D <> [] ->
  let p := Main.DataProcessor.mk D true (Some (processed D)) in
  exists v, main_call fmt c p = (inr v, p).
Proof.
  intros HD p. subst p. pose proof (processed_nonempty D HD) as Hrs.
  destruct c; unfold main_call, fmap, bind.
  - rewrite process_data_main by exact HD. eexists. reflexivity.
  - rewrite get_results_done_main. eexists. reflexivity.
  - rewrite calculate_stats_done_main.
    destruct (calculate_basic_stats_ok _ Hrs) as (mx & mn & Es & _).
    rewrite Es. eexists. reflexivity.
  - rewrite find_outliers_done_main.
    destruct (outliers_of_ok threshold _ Hrs) as (out & Eo).
    rewrite Eo. eexists. reflexivity.
  - rewrite group_values_done_main. eexists. reflexivity.
  - rewrite generate_text_report_done_main.
    destruct (report_of_ok fmt _ Hrs) as (text & Et).
    rewrite Et. eexists. reflexivity.
Qed.

Lemma trace_processed (fmt : R -> string) (calls : list call) (D : list Z) :
  D <> [] ->
  let p := Main.DataProcessor.mk D true (Some (processed D)) in
  trace (main_call fmt) calls p = map (fun c => fst (main_call fmt c p)) calls.
Proof.
  intros HD p. induction calls as [|c calls IH]; [reflexivity|].
  cbn [trace map].
  destruct (main_call_processed fmt c D HD) as (v & Ev). fold p in Ev.
  rewrite Ev. cbn [fst]. now rewrite IH.
Qed.

Lemma main_call_empty (fmt : R -> string) (c : call) :
  main_call fmt c (Main.DataProcessor.new [])
  = (inl (ValueError "Данные не могут быть пустыми"),
     Main.DataProcessor.new []).
Proof. destruct c; reflexivity. Qed.

(** Every call in a sequence returns what the same call returns on a new
    object. *)
Lemma trace_main_new (fmt : R -> string) (calls : list call) (D : list Z) :
  trace (main_call fmt) calls (Main.DataProcessor.new D)
  = map (fun c => fst (main_call fmt c (Main.DataProcessor.new D))) calls.
Proof.
  destruct D as [|d D].
  - induction calls as [|c calls IH]; [reflexivity|].
    cbn [trace map]. rewrite main_call_empty. cbn [fst]. now rewrite IH.
  - assert (HD : d :: D <> []) by discriminate.
    unfold Main.DataProcessor.new.
    destruct calls as [|c calls]; [reflexivity|].
    cbn [trace map]. rewrite (main_call_lazy fmt c _ None HD).
    destruct (main_call_processed fmt c _ HD) as (v & Ev).
    rewrite Ev. cbn [fst]. f_equal.
    rewrite (trace_processed fmt calls _ HD).
    apply map_ext. intros c'. now rewrite (main_call_lazy fmt c' _ None HD).
Qed.

Lemma main2_call_fst (fmt : R -> string) (c : call) (D : list Z) :
  fst (main2_call fmt c (Main2.DataProcessor.new D))
  = fst (main_call fmt c (Main.DataProcessor.new D)).
Proof.
  symmetry. apply (sim_call fmt c _ _ (sim_new D)).
Qed.

(** X11: on objects constructed from one list, the result of a call does not
    depend on the calls made before it: in every sequence of calls, each call
    returns the value, or raises the error, that it returns on a new object.
    The processed list is computed once and never goes stale. *)
Theorem calls_do_not_depend_on_history (fmt : R -> string)
  (calls : list call) (D : list Z) :
  trace (main_call fmt) calls (Main.DataProcessor.new D)
  = map (fun c => fst (main_call fmt c (Main.DataProcessor.new D))) calls
  /\ trace (main2_call fmt) calls (Main2.DataProcessor.new D)
     = map (fun c => fst (main2_call fmt c (Main2.DataProcessor.new D)))
           calls.
Proof.
  split; [apply trace_main_new|].
  rewrite <- (sim_trace fmt calls _ _ (sim_new D)), trace_main_new.
  apply map_ext. intros c. now rewrite main2_call_fst.
Qed.

(** X12: with data of absolute value at most 10^70, inside which the
    arithmetic stays in the range of binary64, every call of every sequence
    of calls succeeds (no [TypeError] from an unset list, no division by
    zero), and without data every call raises the [ValueError] for empty
    data. *)
Theorem calls_fail_only_on_empty_data (fmt : R -> string)
  (calls : list call) (D : list Z) :
  let e := ValueError "Данные не могут быть пустыми" in
  let t1 := trace (main_call fmt) calls (Main.DataProcessor.new D) in
  let t2 := trace (main2_call fmt) calls (Main2.DataProcessor.new D) in
  (D <> [] ->
   Forall (fun d => (Z.abs d <= 10 ^ 70)%Z) D ->
   Forall (fun r => exists v, r = inr v) t1
   /\ Forall (fun r => exists v, r = inr v) t2)
  /\ (D = [] -> Forall (fun r => r = inl e) t1
                /\ Forall (fun r => r = inl e) t2).
Proof.
  intros e t1 t2.
  assert (E12 : t2 = t1).
  { subst t1 t2. symmetry. apply sim_trace, sim_new. }
  rewrite E12. subst t1. rewrite trace_main_new. split.
  - intros HD _.
    assert (H : Forall (fun r : result value => exists v, r = inr v)
                  (map (fun c => fst (main_call fmt c
                                        (Main.DataProcessor.new D))) calls)).
    { apply Forall_forall. intros r Hr. apply in_map_iff in Hr.
      destruct Hr as (c & <- & _). unfold Main.DataProcessor.new.
      rewrite (main_call_lazy fmt c _ None HD).
      destruct (main_call_processed fmt c _ HD) as (v & Ev).
      rewrite Ev. now exists v. }
    split; exact H.
  - intros ->.
    assert (H : Forall (fun r : result value => r = inl e)
                  (map (fun c => fst (main_call fmt c
                                        (Main.DataProcessor.new []))) calls)).
    { apply Forall_forall. intros r Hr. apply in_map_iff in Hr.
      destruct Hr as (c & <- & _). now rewrite main_call_empty. }
    split; exact H.
Qed.

(** ** The user's input *)

(** X13: [validate_input] of main.py and [validate_positive_integer] of
    main2.py return the same pair, and the pair is consistent: either
    [(True, n)] for the number [n >= 0] that [int] returned, or
    [(False, None)]; a negative number is never passed on. *)
Theorem validate_input_consistent (py_int : string -> result Z)
  (value : string) :
  Main.validate_input py_int value
  = Main2.InputValidator.validate_positive_integer py_int value
  /\ (forall b o,
        Main.validate_input py_int value = ok (b, o) ->
        (b = true /\ exists n, o = Some n /\ (0 <= n)%Z
                               /\ py_int value = inr n)
        \/ (b = false /\ o = None))
  /\ (forall n, py_int value = inr n -> (n < 0)%Z ->
        Main.validate_input py_int value = ok (false, None))
  /\ (forall msg, py_int value = inl (ValueError msg) ->
        Main.validate_input py_int value = ok (false, None)).
Proof.
  unfold Main.validate_input,
    Main2.InputValidator.validate_positive_integer.
  destruct (py_int value) as [[msg| |msg]|num] eqn:E;
    [ | | | destruct (Z.ltb_spec num 0) as [Hneg|Hpos];
            destruct (Z.leb_spec 0 num) as [Hle|Hgt]; try lia ];
    repeat apply conj; try reflexivity; try (intros; discriminate).
  - intros b o H. injection H as <- <-. now right.
  - intros b o H. injection H as <- <-. now right.
  - intros b o H. injection H as <- <-. left.
    split; [reflexivity|]. exists num. repeat split. exact Hle.
  - intros n H Hn. injection H as ->. lia.
Qed.

(** X14: [process_user_input] for a line that [int] reads as [n].  For a
    negative [n] it writes the prompt and the error message and returns.
    For [n = 3] the divisor [n - 3] is 0: after the prompt and the echo of
    the number the [ValueError] of the calculation is raised and not
    caught.  For any other [n] from 0 to 10^100, inside which the quotient
    stays in the range of binary64, it writes the prompt, the echo and the
    result of the calculation for [n], [n + 5] and [n - 3]. *)
Theorem process_user_input_cases (py_int : string -> result Z)
  (strip : string -> string) (fmt : R -> string) (line : string) (n : Z)
  (out : list string)
  (Hint : py_int (strip line) = inr n) :
  let prompt := "Введите положительное целое число:"%string in
  let echo := ("Вы ввели: " ++ str_int n)%string in
  let answer :=
    ("Результат комплексной операции: "
     ++ fmt (Spec.compute n (n + 5) (Some (n - 3)%Z)))%string in
  let run1 := Main.process_user_input py_int strip fmt line out in
  let run2 :=
    Main2.InputValidator.process_user_input py_int strip fmt line out in
  ((n < 0)%Z ->
     run1 = (inr tt, out ++ [prompt; "Ошибка: введено недопустимое значение"%string])
     /\ run2 = run1)
  /\ (n = 3%Z ->
        run1 = (inl (ValueError "z не может быть нулем"),
                out ++ [prompt; echo])
        /\ run2 = (inl (ValueError "Делитель не может быть нулем"),
                   out ++ [prompt; echo]))
  /\ ((0 <= n <= 10 ^ 100)%Z -> n <> 3%Z ->
        run1 = (inr tt, out ++ [prompt; echo; answer]) /\ run2 = run1).
Proof.
  intros prompt echo answer run1 run2.
  subst run1 run2.
  unfold Main.process_user_input, Main2.InputValidator.process_user_input,
    Main.validate_input, Main2.InputValidator.validate_positive_integer.
  unfold bind at 1. unfold bind at 6.
  cbv zeta. rewrite Hint.
  split; [|split].
  - intros Hn.
    destruct (Z.ltb_spec n 0); [|lia]. destruct (Z.leb_spec 0 n); [lia|].
    unfold print, bind, lift, ok. cbn.
    rewrite <- !app_assoc. split; reflexivity.
  - intros ->. unfold print, bind, lift, ok. cbn.
    rewrite <- !app_assoc. split; reflexivity.
  - intros [Hn _] H3.
    destruct (Z.ltb_spec n 0); [lia|]. destruct (Z.leb_spec 0 n); [|lia].
    assert (Hz : Some (n - 3)%Z <> Some 0%Z)
      by (intros Hs; injection Hs as Hs; lia).
    unfold print, bind, lift, ok. cbn.
    rewrite (complex_operation_ok n (n + 5) _ Hz).
    rewrite (perform_complex_calculation_ok n (n + 5) _ Hz).
    unfold ok. rewrite <- !app_assoc. split; reflexivity.
Qed.

Lemma process_user_input_cases_witness :
  let py_int := fun _ : string => inr 4%Z : result Z in
  let strip := fun s : string => s in
  let fmt := fun _ : R => "x"%string in
  let prompt := "Введите положительное целое число:"%string in
  let echo := ("Вы ввели: " ++ str_int 4)%string in
  let answer :=
    ("Результат комплексной операции: "
     ++ fmt (Spec.compute 4 (4 + 5) (Some (4 - 3)%Z)))%string in
  let run1 := Main.process_user_input py_int strip fmt "4" [] in
  let run2 :=
    Main2.InputValidator.process_user_input py_int strip fmt "4" [] in
  ((4 < 0)%Z ->
     run1 = (inr tt, [] ++ [prompt; "Ошибка: введено недопустимое значение"%string])
     /\ run2 = run1)
  /\ (4%Z = 3%Z ->
        run1 = (inl (ValueError "z не может быть нулем"),
                [] ++ [prompt; echo])
        /\ run2 = (inl (ValueError "Делитель не может быть нулем"),
                   [] ++ [prompt; echo]))
  /\ ((0 <= 4 <= 10 ^ 100)%Z -> 4%Z <> 3%Z ->
        run1 = (inr tt, [] ++ [prompt; echo; answer]) /\ run2 = run1).
Proof.
  apply (process_user_input_cases (fun _ => inr 4%Z) (fun s => s)
           (fun _ => "x"%string) "4" 4 []).
  reflexivity.
Defined.

(** ** The calculation without a divisor *)

(** X15: without a divisor the calculation never fails and its result is
    not negative: the logarithm is taken of [x * y] when that is at least
    1, and of [|x * y| + 1] otherwise.  The result is 0 exactly when
    [x * y] is 0 or 1. *)
Theorem complex_calculation_without_divisor (x y : Z) :
  exists v : R,
    Main.complex_operation x y None = ok v
    /\ Main2.MathOperations.perform_complex_calculation x y None = ok v
    /\ 0 <= v
    /\ (v = 0 <-> (x * y = 0)%Z \/ (x * y = 1)%Z).
Proof.
  exists (Spec.compute x y None).
  split; [apply complex_operation_ok; discriminate|].
  split; [apply perform_complex_calculation_ok; discriminate|].
  unfold Spec.compute, Spec.compute_base. cbv zeta.
  set (p := (x * y)%Z).
  pose proof PI_RGT_0 as Hpi.
  assert (Hbase : forall b, 1 <= b -> 0 <= ln b * PI).
  { intros b Hb. apply Rmult_le_pos; [|lra].
    rewrite <- ln_1. destruct (Req_dec b 1) as [->|Hne]; [lra|].
    apply Rlt_le, ln_increasing; lra. }
  assert (Hzero : forall b, 1 <= b -> (ln b * PI = 0 <-> b = 1)).
  { intros b Hb. split.
    - intros H0. apply Rmult_integral in H0. destruct H0 as [H0|H0]; [|lra].
      destruct (Req_dec b 1) as [Hb1|Hne]; [exact Hb1|].
      assert (Hlt : ln 1 < ln b) by (apply ln_increasing; lra).
      rewrite ln_1 in Hlt. lra.
    - intros ->. rewrite ln_1. lra. }
  destruct (Rgt_dec (IZR p) 0) as [Hpos|Hnpos].
  - assert (Hp : (1 <= p)%Z) by (apply lt_IZR in Hpos; lia).
    assert (Hp1 : 1 <= IZR p) by (apply (IZR_le 1); exact Hp).
    split; [now apply Hbase|].
    rewrite (Hzero _ Hp1). split.
    + intros H1. right. now apply eq_IZR.
    + intros [H0|H1]; [lia | now rewrite H1].
  - assert (Hp : (p <= 0)%Z).
    { apply Z.nlt_ge. intros Hlt. apply Hnpos. now apply (IZR_lt 0). }
    assert (Habs : Rabs (IZR p) = - IZR p).
    { apply Rabs_left1. now apply (IZR_le p 0). }
    assert (Hp0 : IZR p <= 0) by now apply (IZR_le p 0).
    assert (Hb1 : 1 <= Rabs (IZR p) + 1) by (rewrite Habs; lra).
    split; [now apply Hbase|].
    rewrite (Hzero _ Hb1). split.
    + intros H1. left. apply eq_IZR. rewrite Habs in H1. lra.
    + intros [H0|H1]; [rewrite H0, Rabs_R0; lra | lia].
Qed.
